(** * gitls: the terminal controller of [internals/bblt.go]

    A shallow embedding of the Bubble Tea program in [internals/bblt.go]:
    the two models ([usernameModel], [repoModel]) with their [Update]
    functions, the constructors [prepUsernameModel] and [initialModel], the
    paginated [fetchRepos] loop, the [cloneRepo] command and the start-up
    choice of [BbltRun].

    Go strings are byte strings ([string]); Go [int] values are [Z]; a Go
    [error] is represented by its message; a run-time panic is the [Panic]
    result.  Calls that leave the process (environment, sub-processes, the
    GitHub API) are events of an interaction tree; the Bubbles widgets, which
    are an external library, are an interface ([Bubbles]).  *)

From Stdlib Require Import ZArith List String Ascii Bool Lia.
From ITree Require Import ITree.
Import ListNotations.
Import ITreeNotations.
Local Open Scope string_scope.
Local Open Scope Z_scope.
Local Open Scope itree_scope.

(** ** Go values *)

(** The outcome of evaluating Go code that may panic. *)
Inductive GoResult (A : Type) : Type :=
| Ok (a : A)
| Panic (reason : string).
Arguments Ok {A} a.
Arguments Panic {A} reason.

(** A Go [error] value, by its [Error()] text; [None] is [nil]. *)
Definition error := string.

(** [len(s)] *)
Definition len (s : string) : Z := Z.of_nat (String.length s).

(** The slice expression [s[lo:hi]] on a string: it panics unless
    [0 <= lo <= hi <= len(s)]. *)
Definition go_slice (s : string) (lo hi : Z) : GoResult string :=
  if (0 <=? lo) && (lo <=? hi) && (hi <=? len s)
  then Ok (substring (Z.to_nat lo) (Z.to_nat (hi - lo)) s)
  else Panic "slice bounds out of range".

(** ** Package [strings] *)

Fixpoint LastIndex_from (i : Z) (s substr : string) : Z :=
  match s with
  | EmptyString => if prefix substr EmptyString then i else -1
  | String _ s' =>
      let later := LastIndex_from (i + 1) s' substr in
      if 0 <=? later then later
      else if prefix substr s then i else -1
  end.

(** [strings.LastIndex(s, substr)]: the index of the last instance of
    [substr] in [s], or [-1]. *)
Definition strings_LastIndex (s substr : string) : Z :=
  LastIndex_from 0 s substr.

Definition byte_is (c : ascii) (n : nat) : bool :=
  Nat.eqb (nat_of_ascii c) n.

(** The one-byte white space of [strings.TrimSpace]: tab, line feed,
    vertical tab, form feed, carriage return and space. *)
Definition asciiSpace (c : ascii) : bool :=
  byte_is c 9 || byte_is c 10 || byte_is c 11 || byte_is c 12
  || byte_is c 13 || byte_is c 32.

(** UTF-8 encodings of the other runes of [unicode.IsSpace]: U+0085 and
    U+00A0 take two bytes, U+1680, U+2000..U+200A, U+2028, U+2029, U+202F,
    U+205F and U+3000 take three. *)
Definition space2 (a b : ascii) : bool :=
  byte_is a 194 && (byte_is b 133 || byte_is b 160).

Definition space3 (a b c : ascii) : bool :=
  (byte_is a 225 && byte_is b 154 && byte_is c 128)
  || (byte_is a 226 && byte_is b 128
      && ((Nat.leb 128 (nat_of_ascii c) && Nat.leb (nat_of_ascii c) 138)
          || byte_is c 168 || byte_is c 169 || byte_is c 175))
  || (byte_is a 226 && byte_is b 129 && byte_is c 159)
  || (byte_is a 227 && byte_is b 128 && byte_is c 128).

(** Drops the white-space runes a byte sequence starts with; [sp2] and
    [sp3] recognise the multi-byte ones in the order the bytes are read. *)
Fixpoint trim_front (sp2 : ascii -> ascii -> bool)
    (sp3 : ascii -> ascii -> ascii -> bool) (s : list ascii) : list ascii :=
  match s with
  | [] => []
  | a :: r1 =>
      if asciiSpace a then trim_front sp2 sp3 r1
      else
        match r1 with
        | [] => s
        | b :: r2 =>
            if sp2 a b then trim_front sp2 sp3 r2
            else
              match r2 with
              | [] => s
              | c :: r3 => if sp3 a b c then trim_front sp2 sp3 r3 else s
              end
        end
  end.

(** [strings.TrimSpace(s)]: [s] without leading and trailing white space.
    The trailing runes are read backwards, last byte first. *)
Definition strings_TrimSpace (s : string) : string :=
  let front := trim_front space2 space3 (list_ascii_of_string s) in
  let back :=
    trim_front (fun b a => space2 a b) (fun c b a => space3 a b c) (rev front) in
  string_of_list_ascii (rev back).

(** ** The directory name reported by [cloneRepo] *)

(** [url[strings.LastIndex(url, "/")+1 : len(url)-4]] (bblt.go:127). *)
Definition cloneDir (url : string) : GoResult string :=
  go_slice url (strings_LastIndex url "/" + 1) (len url - 4).

(** ** Bubble Tea: keys, messages *)

(** [tea.KeyType], the part of the key table the program and its widgets
    name. *)
Inductive KeyType : Type :=
| KeyRunes | KeyCtrlC | KeyEnter | KeyEsc
| KeyTab | KeyBackspace | KeyUp | KeyDown.

(** [tea.Key]; the field [Type] is [Type_] here. *)
Record Key : Type := { Type_ : KeyType; Runes : string; Alt : bool }.

Definition keyNames (t : KeyType) : string :=
  match t with
  | KeyRunes => "runes"
  | KeyCtrlC => "ctrl+c"
  | KeyEnter => "enter"
  | KeyEsc => "esc"
  | KeyTab => "tab"
  | KeyBackspace => "backspace"
  | KeyUp => "up"
  | KeyDown => "down"
  end.

(** [tea.KeyMsg.String()]: the runes of a [KeyRunes] key, the name of any
    other key, after ["alt+"] when Alt is held. *)
Definition Key_String (k : Key) : string :=
  (if Alt k then "alt+" else "")
  ++ (match Type_ k with KeyRunes => Runes k | t => keyNames t end).

(** [tea.Msg], by dynamic type.  [OtherMsg] stands for the messages that
    belong to the widgets (cursor blink, filter results, ...). *)
Inductive Msg : Type :=
| KeyMsg (k : Key)
| WindowSizeMsg (Width Height : Z)
| cloneFinishedMsg (err : option error) (dir : string)
| spinner_TickMsg (ID tag : Z)
| OtherMsg (kind : nat).

(** A command handed back by a widget: [nil], [tea.Quit], or a closure of
    the widget's own. *)
Inductive LibCmd : Type :=
| LibNil
| LibQuit
| LibOther (kind : nat).

(** [type item struct { name, url string }] *)
Record item : Type := { name : string; url : string }.

(** ** The Bubbles widgets

    [list.Model], [spinner.Model] and [textinput.Model] with the operations
    the program calls.  The widgets are a library outside this repository;
    three facts of it are used:
    - [list.Model.SelectedItem] returns [nil] when the list shows no item, as
      a list built from no items does;
    - [list.New] installs [list.DefaultKeyMap], which binds [ForceQuit] to
      ctrl+c; no operation the program calls changes that binding
      ([list_DefaultKeyMap] says a model still carries it), and
      [list.Model.Update] starts with
      [if key.Matches(msg, m.KeyMap.ForceQuit) { return m, tea.Quit }];
    - a text input set to the empty string holds the empty string. *)
Class Bubbles : Type := {
  list_Model : Type;
  list_zero : list_Model;
  list_New : list item -> Z -> Z -> list_Model;
  list_SetTitle : list_Model -> string -> list_Model;
  list_SetAdditionalHelpKeys :
    list_Model -> list (string * string) -> list (string * string) -> list_Model;
  list_SetSize : list_Model -> Z -> Z -> list_Model;
  list_SelectedItem : list_Model -> option item;
  list_Update : list_Model -> Msg -> list_Model * LibCmd;
  list_View : list_Model -> string;
  list_DefaultKeyMap : list_Model -> Prop;

  spinner_Model : Type;
  spinner_zero : spinner_Model;
  spinner_New : spinner_Model;
  spinner_SetSpinner : spinner_Model -> string -> spinner_Model;
  spinner_SetForeground : spinner_Model -> string -> spinner_Model;
  spinner_Update : spinner_Model -> Msg -> spinner_Model * LibCmd;
  spinner_View : spinner_Model -> string;

  textinput_Model : Type;
  textinput_New : textinput_Model;
  textinput_SetValue : textinput_Model -> string -> textinput_Model;
  textinput_Focus : textinput_Model -> textinput_Model;
  textinput_CursorFocus : textinput_Model -> textinput_Model;
  textinput_SetCharLimit : textinput_Model -> Z -> textinput_Model;
  textinput_Value : textinput_Model -> string;
  textinput_Update : textinput_Model -> Msg -> textinput_Model * LibCmd;

  list_SelectedItem_New_nil :
    forall w h, list_SelectedItem (list_New [] w h) = None;
  list_New_keys :
    forall its w h, list_DefaultKeyMap (list_New its w h);
  list_SetTitle_keys :
    forall l t, list_DefaultKeyMap l -> list_DefaultKeyMap (list_SetTitle l t);
  list_SetAdditionalHelpKeys_keys :
    forall l short full,
      list_DefaultKeyMap l ->
      list_DefaultKeyMap (list_SetAdditionalHelpKeys l short full);
  list_SetSize_keys :
    forall l w h, list_DefaultKeyMap l -> list_DefaultKeyMap (list_SetSize l w h);
  list_Update_keys :
    forall l msg, list_DefaultKeyMap l -> list_DefaultKeyMap (fst (list_Update l msg));
  list_Update_ForceQuit :
    forall l k,
      list_DefaultKeyMap l -> Key_String k = "ctrl+c" ->
      list_Update l (KeyMsg k) = (l, LibQuit);
  textinput_Value_empty :
    textinput_Value
      (textinput_SetCharLimit
         (textinput_CursorFocus (textinput_Focus (textinput_SetValue textinput_New "")))
         64) = "";
}.

(** ** go-github *)

(** [github.Repository], the two fields read; both are [*string]. *)
Record Repository : Type := { Name : option string; CloneURL : option string }.

Definition GetName (r : Repository) : string :=
  match Name r with Some s => s | None => "" end.

Definition GetCloneURL (r : Repository) : string :=
  match CloneURL r with Some s => s | None => "" end.

(** [github.RepositoryListOptions] with its embedded [ListOptions]. *)
Record RepositoryListOptions : Type :=
  { ListType : string; Page : Z; PerPage : Z }.

(** [github.Response], the field read. *)
Record Response : Type := { NextPage : Z }.

(** The client [fetchRepos] builds: with the token's OAuth2 transport, or
    [github.NewClient(nil)]. *)
Inductive Client : Type :=
| TokenClient (token : string)
| AnonymousClient.

(** ** What leaves the process *)

Variant osE : Type -> Type :=
| Getenv (key : string) : osE string
| CombinedOutput (cmd : string) (args : list string) : osE (string * option error)
| RepositoriesList (client : Client) (user : string) (opt : RepositoryListOptions)
  : osE (list Repository * Response * option error).

(** An event without its answer type, for traces. *)
Inductive Call : Type :=
| CallGetenv (key : string)
| CallCombinedOutput (cmd : string) (args : list string)
| CallRepositoriesList (client : Client) (user : string) (opt : RepositoryListOptions).

Definition call_of {X : Type} (e : osE X) : Call :=
  match e with
  | Getenv k => CallGetenv k
  | CombinedOutput c a => CallCombinedOutput c a
  | RepositoriesList c u o => CallRepositoriesList c u o
  end.

(** The collaborators of one run: the environment, the sub-processes and
    the GitHub API, each by the answer it gives. *)
Record World : Type := {
  env : string -> string;
  exec : string -> list string -> string * option error;
  api : Client -> string -> RepositoryListOptions
        -> list Repository * Response * option error;
}.

Definition answer (w : World) {X : Type} (e : osE X) : X :=
  match e in osE T return T with
  | Getenv k => env w k
  | CombinedOutput c a => exec w c a
  | RepositoriesList c u o => api w c u o
  end.

(** Runs [t] against [w] for at most [fuel] steps: the result and the calls
    made, in order; [None] when the fuel runs out first. *)
Fixpoint run {A : Type} (w : World) (fuel : nat) (t : itree osE A)
  : option (A * list Call) :=
  match fuel with
  | O => None
  | S fuel' =>
      match observe t with
      | RetF a => Some (a, [])
      | TauF t' => run w fuel' t'
      | VisF e k =>
          match run w fuel' (k (answer w e)) with
          | Some (a, calls) => Some (a, call_of e :: calls)
          | None => None
          end
      end
  end.

(** ** The program *)

Section Program.
Context {B : Bubbles}.

(** [type repoModel struct] *)
Record repoModel : Type := {
  rm_username : string;
  rm_repos : list Repository;
  rm_list : list_Model;
  rm_err : option error;
  rm_spinner : spinner_Model;
  rm_cloning : bool;
  rm_cloneMsg : string;
  rm_cloneError : bool;
}.

(** [type usernameModel struct] *)
Record usernameModel : Type := {
  um_rootModel : repoModel;
  um_username : string;
  um_textInput : textinput_Model;
  um_err : option error;
}.

(** A [tea.Model] of this program, by dynamic type. *)
Inductive Model : Type :=
| RepoModel (m : repoModel)
| UsernameModel (m : usernameModel).

(** A [tea.Cmd], as a description of what it will do: [nil], [tea.Quit],
    [textinput.Blink], [sp.Tick], [cloneRepo(url)], [tea.Batch(cmds...)],
    or a closure of a widget's own. *)
#[warnings="-register-all"]
Inductive Cmd : Type :=
| Nil
| Quit
| Blink
| SpinnerTick (sp : spinner_Model)
| CloneRepo (url : string)
| Batch (cmds : list Cmd)
| FromWidget (kind : nat).

Definition widget_cmd (c : LibCmd) : Cmd :=
  match c with
  | LibNil => Nil
  | LibQuit => Quit
  | LibOther k => FromWidget k
  end.

(** Whether running the command starts a [git clone]. *)
Fixpoint dispatches_clone (c : Cmd) : bool :=
  match c with
  | CloneRepo _ => true
  | Batch cmds =>
      (fix any (l : list Cmd) : bool :=
         match l with
         | [] => false
         | c' :: l' => dispatches_clone c' || any l'
         end) cmds
  | _ => false
  end.

(** The zero value [repoModel{}]. *)
Definition repoModel_zero : repoModel :=
  {| rm_username := ""; rm_repos := []; rm_list := list_zero; rm_err := None;
     rm_spinner := spinner_zero; rm_cloning := false; rm_cloneMsg := "";
     rm_cloneError := false |}.

Definition prepUsernameModel (username : string) (rootModel : repoModel)
  : usernameModel :=
  let ti := textinput_New in
  let ti := textinput_SetValue ti username in
  let ti := textinput_Focus ti in
  let ti := textinput_CursorFocus ti in
  let ti := textinput_SetCharLimit ti 64 in
  {| um_rootModel := rootModel; um_username := username; um_textInput := ti;
     um_err := None |}.

Definition usernameModel_Init (m : usernameModel) : Cmd := Blink.

(** One round of the [for] loop of [fetchRepos]: [inl] goes round again with
    the next page, [inr] returns. *)
Definition fetchRepos_page (client : Client) (username : string)
    (st : Z * list Repository)
  : itree osE (Z * list Repository + list Repository * option error) :=
  let '(page, allRepos) := st in
  '(repos, resp, err) <-
    ITree.trigger
      (RepositoriesList client username
         {| ListType := "all"; Page := page; PerPage := 100 |}) ;;
  match err with
  | Some e => Ret (inr ([], Some ("failed to list repos: " ++ e)))
  | None =>
      let allRepos := (allRepos ++ repos)%list in
      if NextPage resp =? 0 then Ret (inr (allRepos, None))
      else Ret (inl (NextPage resp, allRepos))
  end.

Definition fetchRepos (username : string)
  : itree osE (list Repository * option error) :=
  token <- ITree.trigger (Getenv "GITHUB_TOKEN") ;;
  let client := if String.eqb token "" then AnonymousClient else TokenClient token in
  ITree.iter (fetchRepos_page client username) (0, []).

Definition item_of (repo : Repository) : item :=
  {| name := GetName repo; url := GetCloneURL repo |}.

Definition initialModel (username : string) : itree osE repoModel :=
  let sp := spinner_New in
  let sp := spinner_SetSpinner sp "Dot" in
  let sp := spinner_SetForeground sp "205" in
  '(repos, err) <- fetchRepos username ;;
  match err with
  | Some _ =>
      Ret {| rm_username := username; rm_repos := []; rm_list := list_New [] 0 0;
             rm_err := err; rm_spinner := sp; rm_cloning := false;
             rm_cloneMsg := ""; rm_cloneError := false |}
  | None =>
      if Z.of_nat (List.length repos) <=? 0
      then
        Ret {| rm_username := username; rm_repos := []; rm_list := list_New [] 0 0;
               rm_err := err; rm_spinner := sp; rm_cloning := false;
               rm_cloneMsg := ""; rm_cloneError := false |}
      else
        let items := map item_of repos in
        let l := list_New items 0 0 in
        let l := list_SetTitle l (username ++ "'s GitHub Repositories") in
        let l :=
          list_SetAdditionalHelpKeys l
            [("enter", "clone repo"); ("c", "change user")]
            [("enter", "clone selected repository"); ("c", "change GitHub username")] in
        let l := list_SetSize l 80 24 in
        Ret {| rm_username := username; rm_repos := repos; rm_list := l;
               rm_err := None; rm_spinner := sp; rm_cloning := false;
               rm_cloneMsg := ""; rm_cloneError := false |}
  end.

(** [usernameModel.Update]; the Enter branch calls [initialModel], and with
    it the GitHub API, before it returns. *)
Definition usernameModel_Update (m : usernameModel) (msg : Msg)
  : itree osE (Model * Cmd) :=
  let forward :=
    let '(ti, cmd) := textinput_Update (um_textInput m) msg in
    Ret (UsernameModel
           {| um_rootModel := um_rootModel m; um_username := um_username m;
              um_textInput := ti; um_err := um_err m |},
         widget_cmd cmd) in
  match msg with
  | KeyMsg k =>
      match Type_ k with
      | KeyCtrlC => Ret (UsernameModel m, Quit)
      | KeyEnter =>
          let username := strings_TrimSpace (textinput_Value (um_textInput m)) in
          if String.eqb username "" then Ret (UsernameModel m, Nil)
          else rm <- initialModel username ;; Ret (RepoModel rm, Nil)
      | KeyEsc =>
          if String.eqb (um_username m) "" then Ret (UsernameModel m, Quit)
          else Ret (RepoModel (um_rootModel m), Nil)
      | _ => forward
      end
  | _ => forward
  end.

Definition cloneFinished (cmdErr : option error) (output url : string)
  : GoResult Msg :=
  match cmdErr with
  | Some e => Ok (cloneFinishedMsg (Some (e ++ ": " ++ output)) "")
  | None =>
      match cloneDir url with
      | Ok d => Ok (cloneFinishedMsg None d)
      | Panic r => Panic r
      end
  end.

(** What the command [cloneRepo(url)] does when the runtime runs it: the
    message it sends, or a panic. *)
Definition cloneRepo (url : string) : itree osE (GoResult Msg) :=
  '(output, err) <- ITree.trigger (CombinedOutput "git" ["clone"; url]) ;;
  Ret (cloneFinished err output url).

Definition repoModel_Init (m : repoModel) : Cmd := SpinnerTick (rm_spinner m).

(** [normalStyle.GetFrameSize()] for [Margin(1, 2)]: two columns left and
    right, one row above and below. *)
Definition normalStyle_GetFrameSize : Z * Z := (4, 2).

Definition set_list (m : repoModel) (l : list_Model) : repoModel :=
  {| rm_username := rm_username m; rm_repos := rm_repos m; rm_list := l;
     rm_err := rm_err m; rm_spinner := rm_spinner m; rm_cloning := rm_cloning m;
     rm_cloneMsg := rm_cloneMsg m; rm_cloneError := rm_cloneError m |}.

Definition set_spinner (m : repoModel) (sp : spinner_Model) : repoModel :=
  {| rm_username := rm_username m; rm_repos := rm_repos m; rm_list := rm_list m;
     rm_err := rm_err m; rm_spinner := sp; rm_cloning := rm_cloning m;
     rm_cloneMsg := rm_cloneMsg m; rm_cloneError := rm_cloneError m |}.

Definition set_clone (m : repoModel) (cloning : bool) (cloneMsg : string)
    (cloneError : bool) : repoModel :=
  {| rm_username := rm_username m; rm_repos := rm_repos m; rm_list := rm_list m;
     rm_err := rm_err m; rm_spinner := rm_spinner m; rm_cloning := cloning;
     rm_cloneMsg := cloneMsg; rm_cloneError := cloneError |}.

(** The tail of [repoModel.Update], reached by every message that no case
    returns on: [m.list, cmd = m.list.Update(msg); return m, cmd]. *)
Definition forward_to_list (m : repoModel) (msg : Msg) : GoResult (Model * Cmd) :=
  let '(l, cmd) := list_Update (rm_list m) msg in
  Ok (RepoModel (set_list m l), widget_cmd cmd).

(** [repoModel.Update] *)
Definition repoModel_Update (m : repoModel) (msg : Msg) : GoResult (Model * Cmd) :=
  match msg with
  | KeyMsg k =>
      if String.eqb (Key_String k) "ctrl+c" && negb (rm_cloning m)
      then Ok (RepoModel m, Quit)
      else if String.eqb (Key_String k) "enter" && negb (rm_cloning m)
      then
        match list_SelectedItem (rm_list m) with
        | None => Panic "interface conversion: list.Item is nil, not internals.item"
        | Some selectedItem =>
            let m :=
              set_clone m true ("Cloning " ++ name selectedItem ++ "...")
                (rm_cloneError m) in
            Ok (RepoModel m,
                Batch [SpinnerTick (rm_spinner m); CloneRepo (url selectedItem)])
        end
      else if String.eqb (Key_String k) "c" && negb (rm_cloning m)
      then Ok (UsernameModel (prepUsernameModel (rm_username m) m), Nil)
      else forward_to_list m msg
  | WindowSizeMsg Width Height =>
      let '(h, v) := normalStyle_GetFrameSize in
      let m := set_list m (list_SetSize (rm_list m) (Width - h) (Height - v)) in
      forward_to_list m msg
  | cloneFinishedMsg err dir =>
      match err with
      | Some e => Ok (RepoModel (set_clone m false ("Error cloning: " ++ e) true), Nil)
      | None =>
          Ok (RepoModel
                (set_clone m false ("Successfully cloned to " ++ dir ++ "/") false),
              Nil)
      end
  | spinner_TickMsg _ _ =>
      let '(sp, cmd) := spinner_Update (rm_spinner m) msg in
      Ok (RepoModel (set_spinner m sp), widget_cmd cmd)
  | OtherMsg _ => forward_to_list m msg
  end.

(** What [repoModel.View] returns: one constructor for each [return] of the
    function, holding the texts the returned string is rendered from.  The
    rendering itself is lipgloss's:
    - [FetchErrorScreen text] stands for [errorStyle.Render(text)];
    - [CloningScreen list_view spinner_view cloneMsg] for
      [normalStyle.Render(lipgloss.JoinVertical(lipgloss.Left, list_view,
      "\n"+spinner_view+" "+cloneMsg))];
    - [CloneResultScreen list_view failure text] for
      [normalStyle.Render(lipgloss.JoinVertical(lipgloss.Left, list_view,
      "\n"+style.Render(text)))], where [style] is [errorStyle] when
      [failure] is set and [successStyle] otherwise;
    - [ListScreen list_view] for [normalStyle.Render(list_view)]. *)
Inductive Screen : Type :=
| FetchErrorScreen (text : string)
| CloningScreen (list_view spinner_view cloneMsg : string)
| CloneResultScreen (list_view : string) (failure : bool) (text : string)
| ListScreen (list_view : string).

(** [repoModel.View] *)
Definition repoModel_View (m : repoModel) : Screen :=
  match rm_err m with
  | Some e =>
      FetchErrorScreen
        ("Error fetching repos: " ++ e ++ String (ascii_of_nat 10) "Press any key to exit")
  | None =>
      if rm_cloning m
      then CloningScreen (list_View (rm_list m)) (spinner_View (rm_spinner m))
             (rm_cloneMsg m)
      else if negb (String.eqb (rm_cloneMsg m) "")
      then CloneResultScreen (list_View (rm_list m)) (rm_cloneError m) (rm_cloneMsg m)
      else ListScreen (list_View (rm_list m))
  end.

(** The model [BbltRun] hands to [tea.NewProgram]. *)
Definition BbltRun_model : itree osE Model :=
  '(out, err) <- ITree.trigger (CombinedOutput "git" ["config"; "user.name"]) ;;
  let un := strings_TrimSpace out in
  if (match err with Some _ => true | None => false end) && String.eqb un ""
  then Ret (UsernameModel (prepUsernameModel "" repoModel_zero))
  else rm <- initialModel un ;; Ret (RepoModel rm).

(** The browse controller fed [msgs] one by one for as long as it stays the
    active model: its last state and the commands it returned, in order. *)
Fixpoint browse (m : repoModel) (msgs : list Msg) : option (repoModel * list Cmd) :=
  match msgs with
  | [] => Some (m, [])
  | msg :: rest =>
      match repoModel_Update m msg with
      | Ok (RepoModel m', c) =>
          match browse m' rest with
          | Some (m'', cs) => Some (m'', c :: cs)
          | None => None
          end
      | _ => None
      end
  end.

(** The identity controller handling [msgs] one by one without a call
    outside the process and without handing over to another model. *)
Inductive editing : usernameModel -> list Msg -> usernameModel -> Prop :=
| editing_done m : editing m [] m
| editing_step m msg m' c msgs m'' :
    usernameModel_Update m msg = Ret (UsernameModel m', c) ->
    editing m' msgs m'' ->
    editing m (msg :: msgs) m''.

(** ** Notions the statements use *)

(** A key message that [repoModel.Update] reads as the confirm key. *)
Definition is_confirm (msg : Msg) : bool :=
  match msg with
  | KeyMsg k => String.eqb (Key_String k) "enter"
  | _ => false
  end.

(** The three keys the browse controller acts on itself. *)
Definition is_browse_command (k : Key) : bool :=
  String.eqb (Key_String k) "ctrl+c" || String.eqb (Key_String k) "enter"
  || String.eqb (Key_String k) "c".

(** The state after a clone-completion message. *)
Definition clone_finished (m : repoModel) (err : option error) (dir : string)
  : repoModel :=
  match err with
  | Some e => set_clone m false ("Error cloning: " ++ e) true
  | None => set_clone m false ("Successfully cloned to " ++ dir ++ "/") false
  end.

(** The spinner [initialModel] configures. *)
Definition dot_spinner : spinner_Model :=
  spinner_SetForeground (spinner_SetSpinner spinner_New "Dot") "205".

(** The model [initialModel] builds from what [fetchRepos] returned. *)
Definition browse_state (username : string) (fetched : list Repository * option error)
  : repoModel :=
  let '(repos, err) := fetched in
  match err, repos with
  | None, _ :: _ =>
      {| rm_username := username; rm_repos := repos;
         rm_list :=
           list_SetSize
             (list_SetAdditionalHelpKeys
                (list_SetTitle (list_New (map item_of repos) 0 0)
                   (username ++ "'s GitHub Repositories"))
                [("enter", "clone repo"); ("c", "change user")]
                [("enter", "clone selected repository");
                 ("c", "change GitHub username")])
             80 24;
         rm_err := None; rm_spinner := dot_spinner; rm_cloning := false;
         rm_cloneMsg := ""; rm_cloneError := false |}
  | _, _ =>
      {| rm_username := username; rm_repos := []; rm_list := list_New [] 0 0;
         rm_err := err; rm_spinner := dot_spinner; rm_cloning := false;
         rm_cloneMsg := ""; rm_cloneError := false |}
  end.

(** [item.Title], [item.Description] and [item.FilterValue], which the
    list widget calls to show and to filter an entry. *)
Definition item_Title (i : item) : string := name i.
Definition item_Description (i : item) : string := url i.
Definition item_FilterValue (i : item) : string := name i.

(** A clone-completion message. *)
Definition is_finished (msg : Msg) : bool :=
  match msg with
  | cloneFinishedMsg _ _ => true
  | _ => false
  end.

(** How many of the commands start a clone, and how many of the messages
    report the end of one. *)
Definition clones_started (cmds : list Cmd) : nat :=
  List.length (filter dispatches_clone cmds).

Definition clones_finished (msgs : list Msg) : nat :=
  List.length (filter is_finished msgs).

(** The clones the state allows to start: one, or none while one runs. *)
Definition clone_slot (m : repoModel) : nat :=
  if rm_cloning m then 0%nat else 1%nat.

(** The shapes a result of [repoModel.Update] can take. *)
Inductive update_case (m : repoModel) (msg : Msg) : GoResult (Model * Cmd) -> Prop :=
| case_quit (k : Key) :
    msg = KeyMsg k -> Key_String k = "ctrl+c" -> rm_cloning m = false ->
    update_case m msg (Ok (RepoModel m, Quit))
| case_clone (it : item) :
    is_confirm msg = true -> rm_cloning m = false ->
    list_SelectedItem (rm_list m) = Some it ->
    update_case m msg
      (Ok (RepoModel
             (set_clone m true ("Cloning " ++ name it ++ "...") (rm_cloneError m)),
           Batch [SpinnerTick (rm_spinner m); CloneRepo (url it)]))
| case_panic (reason : string) :
    is_confirm msg = true -> rm_cloning m = false ->
    list_SelectedItem (rm_list m) = None ->
    update_case m msg (Panic reason)
| case_identity (k : Key) :
    msg = KeyMsg k -> Key_String k = "c" -> rm_cloning m = false ->
    update_case m msg
      (Ok (UsernameModel (prepUsernameModel (rm_username m) m), Nil))
| case_list (l : list_Model) (cmd : LibCmd) :
    is_finished msg = false ->
    (is_confirm msg = true -> rm_cloning m = true) ->
    (forall k, msg = KeyMsg k -> Key_String k = "c" -> rm_cloning m = true) ->
    update_case m msg (Ok (RepoModel (set_list m l), widget_cmd cmd))
| case_tick (sp : spinner_Model) (cmd : LibCmd) :
    is_finished msg = false -> is_confirm msg = false ->
    (forall k, msg <> KeyMsg k) ->
    update_case m msg (Ok (RepoModel (set_spinner m sp), widget_cmd cmd))
| case_finished (err : option error) (dir : string) :
    msg = cloneFinishedMsg err dir ->
    update_case m msg (Ok (RepoModel (clone_finished m err dir), Nil)).

(** A confirm key in the identity controller on a text that does not trim
    to the empty string: the one message on which it fetches. *)
Definition fetching_confirm (m : usernameModel) (msg : Msg) : bool :=
  match msg with
  | KeyMsg k =>
      match Type_ k with
      | KeyEnter =>
          negb (String.eqb (strings_TrimSpace (textinput_Value (um_textInput m))) "")
      | _ => false
      end
  | _ => false
  end.

(** The runtime's call [model.Update(msg)] on the current [tea.Model], by
    dynamic type. *)
Definition Model_Update (m : Model) (msg : Msg) : itree osE (GoResult (Model * Cmd)) :=
  match m with
  | RepoModel rm => Ret (repoModel_Update rm msg)
  | UsernameModel um => r <- usernameModel_Update um msg ;; Ret (Ok r)
  end.

(** The program fed [msgs] one by one, each to the model the previous one
    left: the last model and the commands returned, in order, or the
    panic that ended it. *)
Fixpoint session (m : Model) (msgs : list Msg)
  : itree osE (GoResult (Model * list Cmd)) :=
  match msgs with
  | [] => Ret (Ok (m, []))
  | msg :: rest =>
      r <- Model_Update m msg ;;
      match r with
      | Panic reason => Ret (Panic reason)
      | Ok (m', c) =>
          r' <- session m' rest ;;
          match r' with
          | Panic reason => Ret (Panic reason)
          | Ok (m'', cs) => Ret (Ok (m'', c :: cs))
          end
      end
  end.

(** The clones a model allows to start: the identity controller is only
    ever entered with none running. *)
Definition model_slot (m : Model) : nat :=
  match m with
  | RepoModel rm => clone_slot rm
  | UsernameModel _ => 1%nat
  end.

(** The browse state an identity controller keeps to return to is idle. *)
Definition root_idle (m : Model) : Prop :=
  match m with
  | RepoModel _ => True
  | UsernameModel um => rm_cloning (um_rootModel um) = false
  end.

(** The three clone fields agree: while cloning the message is the
    "Cloning ..." text; otherwise it is empty, or an error text marked as an
    error, or a success text not marked as one. *)
Definition clone_line_ok (m : repoModel) : Prop :=
  if rm_cloning m
  then exists n, rm_cloneMsg m = "Cloning " ++ n ++ "..."
  else rm_cloneMsg m = ""
       \/ (rm_cloneError m = true /\ exists e, rm_cloneMsg m = "Error cloning: " ++ e)
       \/ (rm_cloneError m = false
           /\ exists d, rm_cloneMsg m = "Successfully cloned to " ++ d ++ "/").

End Program.

(** ** What the specification calls the directory name *)

Fixpoint until_slash (l : list ascii) : list ascii :=
  match l with
  | [] => []
  | c :: r => if byte_is c 47 then [] else c :: until_slash r
  end.

(** The last path segment: what follows the last ["/"], the whole text
    when there is none. *)
Definition last_path_segment (u : string) : string :=
  string_of_list_ascii (rev (until_slash (rev (list_ascii_of_string u)))).

(** [s] ends with [suffix]. *)
Definition HasSuffix (s suffix : string) : bool :=
  (String.length suffix <=? String.length s)%nat
  && String.eqb
       (substring (String.length s - String.length suffix) (String.length suffix) s)
       suffix.

(** [s] without a trailing [suffix]. *)
Definition TrimSuffix (s suffix : string) : string :=
  if HasSuffix s suffix
  then substring 0 (String.length s - String.length suffix) s
  else s.

(** "Last path segment, suffix [.git] stripped." *)
Definition directoryName (u : string) : string :=
  TrimSuffix (last_path_segment u) ".git".

(** No byte of [s] is a slash. *)
Fixpoint no_slash (s : string) : bool :=
  match s with
  | EmptyString => true
  | String c s' => negb (byte_is c 47) && no_slash s'
  end.

(** ** Simulated collaborators *)

(** A GitHub API that serves [pages] one per request: page [n] (and page 0,
    the default) is the [n]-th entry, a listing or a failure; every listing
    but the last names the next page. *)
Definition paged_api (pages : list (list Repository + error))
  : Client -> string -> RepositoryListOptions
    -> list Repository * Response * option error :=
  fun _ _ opt =>
    let i := Z.to_nat (Page opt - 1) in
    match nth_error pages i with
    | Some (inl repos) =>
        (repos,
         {| NextPage := if (S i <? List.length pages)%nat then Z.of_nat i + 2 else 0 |},
         None)
    | Some (inr e) => ([], {| NextPage := 0 |}, Some e)
    | None => ([], {| NextPage := 0 |}, None)
    end.

(** All the pages in order, or the first failure. *)
Fixpoint all_pages (pages : list (list Repository + error))
  : list Repository + error :=
  match pages with
  | [] => inl []
  | inl repos :: rest =>
      match all_pages rest with
      | inl more => inl (repos ++ more)%list
      | inr e => inr e
      end
  | inr e :: _ => inr e
  end.

(** The world whose GitHub API is [paged_api pages]. *)
Definition paged_world (getenv : string -> string)
    (execfn : string -> list string -> string * option error)
    (pages : list (list Repository + error)) : World :=
  {| env := getenv; exec := execfn; api := paged_api pages |}.

(** What a fetch that starts with [acc] collected returns on [pages]. *)
Definition fetch_outcome (acc : list Repository)
    (pages : list (list Repository + error)) : list Repository * option error :=
  match all_pages pages with
  | inl more => ((acc ++ more)%list, None)
  | inr e => ([], Some ("failed to list repos: " ++ e))
  end.

(** The client [fetchRepos] builds for a value of [GITHUB_TOKEN]. *)
Definition client_for (token : string) : Client :=
  if String.eqb token "" then AnonymousClient else TokenClient token.

(** The requests a fetch makes of [paged_api], in order: [page] first, which
    is entry [i] of the pages, then the next page after every listing that
    is not the last; none after a failure. *)
Fixpoint page_requests (client : Client) (username : string) (page : Z) (i : nat)
    (rest : list (list Repository + error)) : list Call :=
  CallRepositoriesList client username
    {| ListType := "all"; Page := page; PerPage := 100 |}
  :: match rest with
     | inl _ :: rest' =>
         match rest' with
         | [] => []
         | _ :: _ => page_requests client username (Z.of_nat i + 2) (S i) rest'
         end
     | _ => []
     end.

(** The request [fetchRepos] makes of world [w] for page [p] of [username],
    and what the world answers to it. *)
Definition page_options (p : Z) : RepositoryListOptions :=
  {| ListType := "all"; Page := p; PerPage := 100 |}.

Definition page_request (w : World) (username : string) (p : Z) : Call :=
  CallRepositoriesList (client_for (env w "GITHUB_TOKEN")) username (page_options p).

Definition page_answer (w : World) (username : string) (p : Z)
  : list Repository * Response * option error :=
  api w (client_for (env w "GITHUB_TOKEN")) username (page_options p).

Definition listing_of (a : list Repository * Response * option error)
  : list Repository := fst (fst a).

Definition next_of (a : list Repository * Response * option error) : Z :=
  NextPage (snd (fst a)).

Definition failure_of (a : list Repository * Response * option error)
  : option error := snd a.

(** Page [p] and then [later] are linked: every page but the last was
    answered without a failure and named the page asked for next. *)
Fixpoint linked (w : World) (username : string) (p : Z) (later : list Z) : Prop :=
  match later with
  | [] => True
  | q :: later' =>
      failure_of (page_answer w username p) = None
      /\ next_of (page_answer w username p) = q /\ q <> 0
      /\ linked w username q later'
  end.

(** The last of the pages [p :: later]. *)
Fixpoint final_page (p : Z) (later : list Z) : Z :=
  match later with
  | [] => p
  | q :: later' => final_page q later'
  end.

(** A world whose API never fails and names page 2 as the next page in
    every answer. *)
Definition endless_world : World :=
  {| env := fun _ => "";
     exec := fun _ _ => ("", None);
     api := fun _ _ _ => ([], {| NextPage := 2 |}, None) |}.

(** Plain stand-ins for the three widgets, enough to run the program on
    concrete input: a list with a cursor, a frame counter, a line of text. *)
Module Sim.

(** [keys] says whether the list carries the default key map, as the
    lists made by [list.New] do and the zero value does not. *)
Record ListW : Type :=
  { items : list item; cursor : nat; title : string; size : Z * Z; keys : bool }.

Definition list_update (l : ListW) (msg : Msg) : ListW * LibCmd :=
  match msg with
  | KeyMsg k =>
      let s := Key_String k in
      if negb (keys l) then (l, LibNil)
      else if String.eqb s "ctrl+c" || String.eqb s "q" || String.eqb s "esc"
      then (l, LibQuit)
      else if String.eqb s "down" || String.eqb s "j"
      then
        ({| items := items l;
            cursor := if (S (cursor l) <? List.length (items l))%nat
                      then S (cursor l) else cursor l;
            title := title l; size := size l; keys := keys l |}, LibNil)
      else if String.eqb s "up" || String.eqb s "k"
      then
        ({| items := items l; cursor := Nat.pred (cursor l); title := title l;
            size := size l; keys := keys l |}, LibNil)
      else (l, LibNil)
  | _ => (l, LibNil)
  end.

Record TextW : Type := { value : string; limit : Z; focused : bool }.

Definition text_update (t : TextW) (msg : Msg) : TextW * LibCmd :=
  match msg with
  | KeyMsg k =>
      match Type_ k with
      | KeyRunes =>
          let v := value t ++ Runes k in
          if (limit t <=? 0) || (len v <=? limit t)
          then ({| value := v; limit := limit t; focused := focused t |}, LibNil)
          else (t, LibNil)
      | KeyBackspace =>
          ({| value := substring 0 (String.length (value t) - 1) (value t);
              limit := limit t; focused := focused t |}, LibNil)
      | _ => (t, LibNil)
      end
  | _ => (t, LibOther 0)
  end.

Definition spinner_update (frame : nat) (msg : Msg) : nat * LibCmd :=
  match msg with
  | spinner_TickMsg _ _ => (S frame, LibOther 1)
  | _ => (frame, LibNil)
  end.

(** The list drawn as its title and one row per item, the row under the
    cursor marked. *)
Fixpoint rows (its : list item) (cur : option nat) : string :=
  match its with
  | [] => EmptyString
  | it :: rest =>
      (match cur with Some O => "> " | _ => "  " end)
      ++ name it ++ String (ascii_of_nat 10)
           (rows rest (match cur with Some (S n) => Some n | _ => None end))
  end.

Definition list_view (l : ListW) : string :=
  title l ++ String (ascii_of_nat 10) (rows (items l) (Some (cursor l))).

(** The spinner drawn as a dot that moves with the frame. *)
Definition spinner_view (frame : nat) : string :=
  match Nat.modulo frame 3 with
  | 0%nat => ".  "
  | 1%nat => " . "
  | _ => "  ."
  end.

Lemma list_update_keys (l : ListW) (msg : Msg) :
  keys l = true -> keys (fst (list_update l msg)) = true.
Proof.
  intros H. unfold list_update. destruct msg as [k | | | |]; try exact H.
  rewrite H. simpl negb. cbv iota.
  repeat (match goal with |- context [if ?b then _ else _] => destruct b end);
    simpl; first [exact H | reflexivity].
Qed.

Lemma list_update_ForceQuit (l : ListW) (k : Key) :
  keys l = true -> Key_String k = "ctrl+c" -> list_update l (KeyMsg k) = (l, LibQuit).
Proof. intros Hl H. unfold list_update. rewrite Hl, H. reflexivity. Qed.

Definition widgets : Bubbles :=
  {| list_Model := ListW;
     list_zero :=
       {| items := []; cursor := 0; title := ""; size := (0, 0); keys := false |};
     list_New := fun its w h =>
       {| items := its; cursor := 0; title := "List"; size := (w, h); keys := true |};
     list_SetTitle := fun l t =>
       {| items := items l; cursor := cursor l; title := t; size := size l;
          keys := keys l |};
     list_SetAdditionalHelpKeys := fun l _ _ => l;
     list_SetSize := fun l w h =>
       {| items := items l; cursor := cursor l; title := title l; size := (w, h);
          keys := keys l |};
     list_SelectedItem := fun l => nth_error (items l) (cursor l);
     list_Update := list_update;
     list_View := list_view;
     list_DefaultKeyMap := fun l => keys l = true;
     spinner_Model := nat;
     spinner_zero := 0%nat;
     spinner_New := 0%nat;
     spinner_SetSpinner := fun sp _ => sp;
     spinner_SetForeground := fun sp _ => sp;
     spinner_Update := spinner_update;
     spinner_View := spinner_view;
     textinput_Model := TextW;
     textinput_New := {| value := ""; limit := 0; focused := false |};
     textinput_SetValue := fun t v =>
       {| value := v; limit := limit t; focused := focused t |};
     textinput_Focus := fun t =>
       {| value := value t; limit := limit t; focused := true |};
     textinput_CursorFocus := fun t => t;
     textinput_SetCharLimit := fun t n =>
       {| value := value t; limit := n; focused := focused t |};
     textinput_Value := value;
     textinput_Update := text_update;
     list_SelectedItem_New_nil := fun _ _ => eq_refl;
     list_New_keys := fun _ _ _ => eq_refl;
     list_SetTitle_keys := fun _ _ H => H;
     list_SetAdditionalHelpKeys_keys := fun _ _ _ H => H;
     list_SetSize_keys := fun _ _ _ H => H;
     list_Update_keys := list_update_keys;
     list_Update_ForceQuit := list_update_ForceQuit;
     textinput_Value_empty := eq_refl |}.

End Sim.

(** Concrete keys, pages and states, run with the stand-in widgets. *)
Module Scenario.

Definition enter : Key := {| Type_ := KeyEnter; Runes := ""; Alt := false |}.
Definition esc : Key := {| Type_ := KeyEsc; Runes := ""; Alt := false |}.
Definition ctrl_c : Key := {| Type_ := KeyCtrlC; Runes := ""; Alt := false |}.
Definition typed (text : string) : Key :=
  {| Type_ := KeyRunes; Runes := text; Alt := false |}.
Definition backspace : Key := {| Type_ := KeyBackspace; Runes := ""; Alt := false |}.

Definition repo (owner name : string) : Repository :=
  {| Name := Some name;
     CloneURL := Some ("https://github.com/" ++ owner ++ "/" ++ name ++ ".git") |}.

Definition alice_pages : list (list Repository + error) :=
  [inl [repo "alice" "dotfiles"; repo "alice" "gitls"]; inl [repo "alice" "notes"]].

Definition no_env : string -> string := fun _ => "".

(** Every sub-process prints [out] and ends with [err]. *)
Definition git_says (out : string) (err : option error)
  : string -> list string -> string * option error :=
  fun _ _ => (out, err).

Definition newline : string := String (ascii_of_nat 10) "".

(** Alice's repositories on the screen, nothing cloned yet. *)
Definition browsing : @repoModel Sim.widgets :=
  browse_state "alice" (fetch_outcome [] alice_pages).

(** The same with a clone of the first entry under way. *)
Definition cloning : @repoModel Sim.widgets :=
  set_clone browsing true "Cloning dotfiles..." false.

(** The identity controller holding three spaces. *)
Definition blank : @usernameModel Sim.widgets :=
  prepUsernameModel "   " repoModel_zero.

(** The identity controller entered from [browsing], after typing "x" and
    deleting it. *)
Definition edited : @usernameModel Sim.widgets :=
  {| um_rootModel := browsing; um_username := "alice";
     um_textInput := {| Sim.value := "alice"; Sim.limit := 64; Sim.focused := true |};
     um_err := None |}.


(** Moving down the list, a resize, a spinner tick. *)
Definition idling : list Msg :=
  [KeyMsg (typed "j"); WindowSizeMsg 120 40; spinner_TickMsg 1 1].

(** A clone started, waited for and finished; then a second one started. *)
Definition two_clones : list Msg :=
  [KeyMsg enter; KeyMsg enter; spinner_TickMsg 1 1; cloneFinishedMsg None "dotfiles";
   KeyMsg (typed "j"); KeyMsg enter].

(** From start-up: a clone, its end, a change of identity that is
    cancelled, and another clone. *)
Definition a_session : list Msg :=
  [KeyMsg enter; KeyMsg (typed "c"); cloneFinishedMsg None "dotfiles";
   KeyMsg (typed "c"); KeyMsg (typed "x"); KeyMsg esc; KeyMsg enter].

(** [git config user.name] prints "alice"; GitHub serves her pages. *)
Definition alice_world : World :=
  paged_world no_env (git_says "alice" None) alice_pages.

End Scenario.

(** * Properties *)

(** ** Running interaction trees *)

Lemma run_observe {A : Type} (w : World) (fuel : nat) (t t' : itree osE A) :
  observe t = observe t' -> run w fuel t = run w fuel t'.
Proof.
  intros H. destruct fuel as [|fuel]; simpl; [reflexivity|].
  rewrite H. reflexivity.
Qed.

Lemma run_more_fuel {A : Type} (w : World) (fuel : nat) :
  forall (t : itree osE A) (r : A * list Call) (fuel' : nat),
    run w fuel t = Some r -> (fuel <= fuel')%nat -> run w fuel' t = Some r.
Proof.
  induction fuel as [|fuel IH]; intros t r fuel' Hrun Hle; simpl in Hrun.
  - discriminate.
  - destruct fuel' as [|fuel']; [lia|]. simpl.
    destruct (observe t) as [a | t0 | X e k].
    + exact Hrun.
    + apply IH with (fuel' := fuel') in Hrun; [exact Hrun | lia].
    + destruct (run w fuel (k (answer w e))) as [[a calls]|] eqn:Hk; [|discriminate].
      apply IH with (fuel' := fuel') in Hk; [|lia].
      rewrite Hk. exact Hrun.
Qed.

Lemma run_Ret {A : Type} (w : World) (fuel : nat) (a : A) :
  run w (S fuel) (Ret a) = Some (a, []).
Proof. reflexivity. Qed.

Lemma run_Tau {A : Type} (w : World) (fuel : nat) (t : itree osE A) :
  run w (S fuel) (Tau t) = run w fuel t.
Proof. reflexivity. Qed.

Lemma run_trigger_bind {X A : Type} (w : World) (fuel : nat) (e : osE X)
    (k : X -> itree osE A) :
  run w (S fuel) (ITree.bind (ITree.trigger e) k)
  = match run w fuel (k (answer w e)) with
    | Some (a, calls) => Some (a, call_of e :: calls)
    | None => None
    end.
Proof.
  simpl. rewrite (run_observe w fuel (ITree.bind (Ret (answer w e)) k) (k (answer w e)));
    reflexivity.
Qed.

Lemma run_iter {I R : Type} (w : World) (fuel : nat)
    (step : I -> itree osE (I + R)) (i : I) :
  run w fuel (ITree.iter step i)
  = run w fuel
      (ITree.bind (step i)
         (fun lr => match lr with
                    | inl l => Tau (ITree.iter step l)
                    | inr r => Ret r
                    end)).
Proof. apply run_observe. reflexivity. Qed.

Lemma run_bind {A C : Type} (w : World) (f1 : nat) :
  forall (t : itree osE A) (a : A) (c1 : list Call),
    run w f1 t = Some (a, c1) ->
    forall (f2 : nat) (k : A -> itree osE C) (b : C) (c2 : list Call),
      run w f2 (k a) = Some (b, c2) ->
      run w (f1 + f2) (ITree.bind t k) = Some (b, (c1 ++ c2)%list).
Proof.
  induction f1 as [|f1 IH]; intros t a c1 Ht f2 k b c2 Hk; simpl in Ht.
  - discriminate.
  - destruct (observe t) as [a0 | t0 | X e k0] eqn:Hobs.
    + injection Ht as <- <-. simpl app.
      rewrite (run_observe w _ (ITree.bind t k) (k a0)).
      * apply run_more_fuel with (fuel := f2); [exact Hk | lia].
      * unfold ITree.bind. simpl. rewrite Hobs. reflexivity.
    + rewrite (run_observe w _ (ITree.bind t k) (Tau (ITree.bind t0 k))).
      * simpl. apply IH with (a := a); assumption.
      * unfold ITree.bind. simpl. rewrite Hobs. reflexivity.
    + destruct (run w f1 (k0 (answer w e))) as [[a1 calls]|] eqn:Hk0; [|discriminate].
      injection Ht as <- <-.
      rewrite (run_observe w _ (ITree.bind t k)
                 (Vis e (fun x => ITree.bind (k0 x) k))).
      * simpl. rewrite (IH _ _ _ Hk0 _ _ _ _ Hk). reflexivity.
      * unfold ITree.bind. simpl. rewrite Hobs. reflexivity.
Qed.

Lemma run_Ret_bind {A C : Type} (w : World) (fuel : nat) (a : A)
    (k : A -> itree osE C) :
  run w fuel (ITree.bind (Ret a) k) = run w fuel (k a).
Proof. apply run_observe. reflexivity. Qed.

Lemma run_trigger_bind_bind {X A C : Type} (w : World) (fuel : nat) (e : osE X)
    (k : X -> itree osE A) (k' : A -> itree osE C) :
  run w (S fuel) (ITree.bind (ITree.bind (ITree.trigger e) k) k')
  = match run w fuel (ITree.bind (k (answer w e)) k') with
    | Some (a, calls) => Some (a, call_of e :: calls)
    | None => None
    end.
Proof.
  simpl.
  rewrite (run_observe w fuel
             (ITree.bind (ITree.bind (Ret (answer w e)) k) k')
             (ITree.bind (k (answer w e)) k')); reflexivity.
Qed.

(** ** The pagination loop against the simulated API *)

Section Pagination.
Variables (getenv : string -> string)
          (execfn : string -> list string -> string * option error).

Lemma fetch_loop (client : Client) (username : string) :
  forall (rest pre : list (list Repository + error)) (acc : list Repository)
         (page : Z),
    Z.to_nat (page - 1) = List.length pre ->
    (rest = [] -> pre = []) ->
    run (paged_world getenv execfn (pre ++ rest)) (2 * List.length rest + 2)
      (ITree.iter (fetchRepos_page client username) (page, acc))
    = Some (fetch_outcome acc rest,
            page_requests client username page (List.length pre) rest).
Proof.
  induction rest as [|p rest IH]; intros pre acc page Hpage Hpre.
  - rewrite (Hpre eq_refl) in *. simpl in Hpage.
    rewrite run_iter. unfold fetchRepos_page.
    change (2 * List.length (@nil (list Repository + error)) + 2)%nat with 2%nat.
    rewrite run_trigger_bind_bind.
    simpl answer. unfold paged_api. simpl Page. rewrite Hpage. reflexivity.
  - assert (Hnth : nth_error (pre ++ p :: rest) (List.length pre) = Some p).
    { rewrite nth_error_app2 by lia. rewrite Nat.sub_diag. reflexivity. }
    rewrite run_iter. unfold fetchRepos_page.
    replace (2 * List.length (p :: rest) + 2)%nat
      with (S (S (2 * List.length rest + 2))) by (simpl; lia).
    rewrite run_trigger_bind_bind.
    simpl answer. unfold paged_api. simpl Page. rewrite Hpage, Hnth.
    destruct p as [repos | e].
    + destruct rest as [|p' rest].
      * replace (S (List.length pre) <? List.length (pre ++ [inl repos]))%nat
          with false
          by (symmetry; apply Nat.ltb_ge; rewrite length_app; simpl; lia).
        simpl. unfold fetch_outcome. simpl. rewrite app_nil_r. reflexivity.
      * replace (S (List.length pre) <? List.length (pre ++ inl repos :: p' :: rest))%nat
          with true
          by (symmetry; apply Nat.ltb_lt; rewrite length_app; simpl; lia).
        cbv beta iota zeta. simpl NextPage.
        replace (Z.of_nat (List.length pre) + 2 =? 0) with false
          by (symmetry; apply Z.eqb_neq; lia).
        rewrite run_Ret_bind, run_Tau.
        assert (Hlen : List.length (pre ++ [inl repos : list Repository + error])
                       = S (List.length pre))
          by (rewrite length_app; simpl; lia).
        pose proof (IH (pre ++ [inl repos])%list (acc ++ repos)%list
                      (Z.of_nat (List.length pre) + 2)) as Hnext.
        rewrite Hlen in Hnext.
        rewrite <- app_assoc in Hnext. simpl app in Hnext.
        unfold fetchRepos_page in Hnext.
        rewrite Hnext by (lia || discriminate).
        cbn [call_of page_requests]. f_equal. f_equal.
        unfold fetch_outcome. simpl all_pages.
        destruct (all_pages rest) as [more | e];
          destruct p' as [r' | e']; try reflexivity;
          rewrite <- ?app_assoc; reflexivity.
    + reflexivity.
Qed.

End Pagination.

Lemma all_pages_listings (listings : list (list Repository)) :
  all_pages (map inl listings) = inl (List.concat listings).
Proof.
  induction listings as [|l ls IH]; simpl; [reflexivity|].
  rewrite IH. reflexivity.
Qed.

Lemma all_pages_failure (before : list (list Repository)) (e : error)
    (after : list (list Repository + error)) :
  all_pages (map inl before ++ inr e :: after) = inr e.
Proof.
  induction before as [|l ls IH]; simpl; [reflexivity|].
  rewrite IH. reflexivity.
Qed.

Lemma length_concat_pages (listings : list (list Repository)) :
  List.length (List.concat listings) = list_sum (map (@List.length Repository) listings).
Proof.
  induction listings as [|l ls IH]; simpl; [reflexivity|].
  rewrite length_app, IH. reflexivity.
Qed.

Lemma fetchRepos_paged_calls (getenv : string -> string)
    (execfn : string -> list string -> string * option error)
    (username : string) (pages : list (list Repository + error)) (extra : nat) :
  run (paged_world getenv execfn pages) (2 * List.length pages + 3 + extra)
    (fetchRepos username)
  = Some (fetch_outcome [] pages,
          CallGetenv "GITHUB_TOKEN"
          :: page_requests (client_for (getenv "GITHUB_TOKEN")) username 0 0 pages).
Proof.
  unfold fetchRepos.
  replace (2 * List.length pages + 3 + extra)%nat
    with (S (2 * List.length pages + 2 + extra)) by lia.
  rewrite run_trigger_bind.
  pose proof (fetch_loop getenv execfn (client_for (getenv "GITHUB_TOKEN"))
                username pages [] [] 0 eq_refl (fun _ => eq_refl)) as Hloop.
  simpl app in Hloop.
  apply run_more_fuel with (fuel' := (2 * List.length pages + 2 + extra)%nat) in Hloop;
    [|lia].
  simpl answer. unfold client_for in Hloop. simpl env. rewrite Hloop. reflexivity.
Qed.

Lemma fetchRepos_paged (getenv : string -> string)
    (execfn : string -> list string -> string * option error)
    (username : string) (pages : list (list Repository + error)) (extra : nat) :
  exists calls,
    run (paged_world getenv execfn pages) (2 * List.length pages + 3 + extra)
      (fetchRepos username)
    = Some (fetch_outcome [] pages, calls).
Proof. eexists. apply fetchRepos_paged_calls. Qed.

Lemma page_requests_next (client : Client) (username : string) (page : Z)
    (i : nat) (l : list Repository) (p : list Repository + error)
    (rest : list (list Repository + error)) :
  page_requests client username page i (inl l :: p :: rest)
  = CallRepositoriesList client username
      {| ListType := "all"; Page := page; PerPage := 100 |}
    :: page_requests client username (Z.of_nat i + 2) (S i) (p :: rest).
Proof. reflexivity. Qed.

Lemma page_requests_until_failure (client : Client) (username : string)
    (e : error) (after : list (list Repository + error)) :
  forall (before : list (list Repository)) (page : Z) (i : nat),
    List.length
      (page_requests client username page i (map inl before ++ inr e :: after))
    = S (List.length before).
Proof.
  induction before as [|l before IH]; intros page i; [reflexivity|].
  assert (Hcons : exists p rest,
             (map inl before ++ inr e :: after)%list = p :: rest)
    by (destruct before; simpl; eauto).
  destruct Hcons as (p & rest & Hrest).
  specialize (IH (Z.of_nat i + 2) (S i)). rewrite Hrest in IH.
  cbn [map app]. rewrite Hrest, page_requests_next.
  cbn [List.length]. rewrite IH. reflexivity.
Qed.

(** C7. Against an API that serves a sequence of pages, [fetchRepos]
    returns all the listings concatenated in page order, as many entries as
    the pages hold together; when a page's request fails it returns that
    failure, wrapped as "failed to list repos: ...", and no repository of
    the pages before it, and it asks for no page after the failing one.  The
    loop always returns: the fuel is a bound on its steps. *)
Theorem fetchRepos_follows_pagination
    (getenv : string -> string)
    (execfn : string -> list string -> string * option error)
    (username : string) (extra : nat) :
  (forall listings : list (list Repository),
      run (paged_world getenv execfn (map inl listings))
        (2 * List.length listings + 3 + extra) (fetchRepos username)
      = Some ((List.concat listings, None),
              CallGetenv "GITHUB_TOKEN"
              :: page_requests (client_for (getenv "GITHUB_TOKEN")) username 0 0
                   (map inl listings))
      /\ List.length (List.concat listings)
         = list_sum (map (@List.length Repository) listings))
  /\ (forall (before : list (list Repository)) (e : error)
             (after : list (list Repository + error)),
         exists calls,
           run (paged_world getenv execfn (map inl before ++ inr e :: after))
             (2 * (List.length before + 1 + List.length after) + 3 + extra)
             (fetchRepos username)
           = Some (([], Some ("failed to list repos: " ++ e)), calls)
           /\ List.length calls = S (S (List.length before))).
Proof.
  split.
  - intros listings. split; [|apply length_concat_pages].
    pose proof (fetchRepos_paged_calls getenv execfn username (map inl listings) extra)
      as Hcalls.
    rewrite length_map in Hcalls. rewrite Hcalls.
    unfold fetch_outcome. rewrite all_pages_listings. reflexivity.
  - intros before e after.
    pose proof (fetchRepos_paged_calls getenv execfn username
                  (map inl before ++ inr e :: after) extra) as Hcalls.
    rewrite length_app, length_map in Hcalls. simpl List.length in Hcalls.
    eexists. split.
    + replace (2 * (List.length before + 1 + List.length after) + 3 + extra)%nat
        with (2 * (List.length before + S (List.length after)) + 3 + extra)%nat by lia.
      rewrite Hcalls. unfold fetch_outcome. rewrite all_pages_failure. reflexivity.
    + simpl List.length. rewrite page_requests_until_failure. reflexivity.
Qed.

(** Two pages for alice, no token: the first request names no page, the
    second names page 2, and the three repositories come back in order. *)
Example fetch_alice_pages :
  run (paged_world Scenario.no_env (Scenario.git_says "" None) Scenario.alice_pages)
    7 (fetchRepos "alice")
  = Some (([Scenario.repo "alice" "dotfiles"; Scenario.repo "alice" "gitls";
            Scenario.repo "alice" "notes"], None),
          [CallGetenv "GITHUB_TOKEN";
           CallRepositoriesList AnonymousClient "alice"
             {| ListType := "all"; Page := 0; PerPage := 100 |};
           CallRepositoriesList AnonymousClient "alice"
             {| ListType := "all"; Page := 2; PerPage := 100 |}]).
Proof. vm_compute. reflexivity. Qed.

(** A second page that fails: the first page's repositories are dropped. *)
Example fetch_second_page_fails :
  run (paged_world Scenario.no_env (Scenario.git_says "" None)
         [inl [Scenario.repo "alice" "dotfiles"]; inr "502 Bad Gateway";
          inl [Scenario.repo "alice" "notes"]])
    9 (fetchRepos "alice")
  = Some (([], Some "failed to list repos: 502 Bad Gateway"),
          [CallGetenv "GITHUB_TOKEN";
           CallRepositoriesList AnonymousClient "alice"
             {| ListType := "all"; Page := 0; PerPage := 100 |};
           CallRepositoriesList AnonymousClient "alice"
             {| ListType := "all"; Page := 2; PerPage := 100 |}]).
Proof. vm_compute. reflexivity. Qed.

(** ** The identity controller *)

Lemma Ret_inj {E : Type -> Type} {A : Type} (a b : A) :
  @eq (itree E A) (Ret a) (Ret b) -> a = b.
Proof.
  intros H. apply (f_equal observe) in H. simpl in H. injection H as H. exact H.
Qed.

Lemma whitespace_trims_to_nothing (sp2 : ascii -> ascii -> bool)
    (sp3 : ascii -> ascii -> ascii -> bool) (l : list ascii) :
  forallb asciiSpace l = true -> trim_front sp2 sp3 l = [].
Proof.
  induction l as [|a l IH]; simpl; [reflexivity|].
  intros H. apply andb_prop in H as [Ha Hl]. rewrite Ha. apply IH, Hl.
Qed.

(** A text of one-byte white space only is trimmed to the empty string. *)
Lemma TrimSpace_whitespace (s : string) :
  forallb asciiSpace (list_ascii_of_string s) = true -> strings_TrimSpace s = "".
Proof.
  intros H. unfold strings_TrimSpace.
  rewrite (whitespace_trims_to_nothing _ _ _ H). reflexivity.
Qed.

Section Controllers.
Context {B : Bubbles}.

Lemma usernameModel_step_keeps_identity (m m' : usernameModel) (msg : Msg) (c : Cmd) :
  usernameModel_Update m msg = Ret (UsernameModel m', c) ->
  um_username m' = um_username m /\ um_rootModel m' = um_rootModel m.
Proof.
  assert (Hfwd :
    (let '(ti, cmd) := textinput_Update (um_textInput m) msg in
     Ret (UsernameModel
            {| um_rootModel := um_rootModel m; um_username := um_username m;
               um_textInput := ti; um_err := um_err m |},
          widget_cmd cmd)) = (Ret (UsernameModel m', c) : itree osE (Model * Cmd)) ->
    um_username m' = um_username m /\ um_rootModel m' = um_rootModel m).
  { destruct (textinput_Update (um_textInput m) msg) as [ti cmd]. intros H.
    apply Ret_inj in H. injection H as <- _. split; reflexivity. }
  unfold usernameModel_Update.
  destruct msg as [k | | | |]; try exact Hfwd.
  destruct (Type_ k); try exact Hfwd.
  - intros H. apply Ret_inj in H. injection H as <- _. split; reflexivity.
  - destruct (String.eqb _ "").
    + intros H. apply Ret_inj in H. injection H as <- _. split; reflexivity.
    + intros H. apply (f_equal observe) in H. simpl in H. discriminate H.
  - destruct (String.eqb _ "").
    + intros H. apply Ret_inj in H. injection H as <- _. split; reflexivity.
    + intros H. apply Ret_inj in H. discriminate H.
Qed.

Lemma editing_keeps_identity (m m' : usernameModel) (msgs : list Msg) :
  editing m msgs m' ->
  um_username m' = um_username m /\ um_rootModel m' = um_rootModel m.
Proof.
  induction 1 as [m | m msg m1 c msgs m2 Hstep _ IH].
  - split; reflexivity.
  - destruct (usernameModel_step_keeps_identity _ _ _ _ Hstep) as [Hu Hr].
    destruct IH as [IHu IHr]. split; congruence.
Qed.

(** How the identity controller is entered from the browse controller:
    the "c" key, when no clone is running, seeds it with the browse state's
    username and keeps that state as [rootModel]. *)
Lemma change_identity_key (b : repoModel) (k : Key) :
  Key_String k = "c" -> rm_cloning b = false ->
  repoModel_Update b (KeyMsg k)
  = Ok (UsernameModel (prepUsernameModel (rm_username b) b), Nil).
Proof.
  intros Hk Hc. unfold repoModel_Update. rewrite Hk, Hc. reflexivity.
Qed.

(** C10. In the identity controller Ctrl+C always signals termination: for
    every state of the controller (every text held, every seeded identity,
    every browse state kept to return to) [Update] returns the model with
    [tea.Quit], without a call outside the process. *)
Theorem identity_interrupt_always_quits (m : usernameModel) (runes : string)
    (alt : bool) (w : World) (fuel : nat) :
  usernameModel_Update m (KeyMsg {| Type_ := KeyCtrlC; Runes := runes; Alt := alt |})
  = Ret (UsernameModel m, Quit)
  /\ run w (S fuel)
       (usernameModel_Update m
          (KeyMsg {| Type_ := KeyCtrlC; Runes := runes; Alt := alt |}))
     = Some ((UsernameModel m, Quit), []).
Proof. split; reflexivity. Qed.

(** C8. Enter in the identity controller, when the text held trims to the
    empty string: [Update] returns the same model and no command; it is a
    leaf of the interaction tree, so nothing is fetched, and the model's
    [err] is what it was. *)
Theorem identity_confirm_empty_is_ignored (m : usernameModel) (k : Key)
    (w : World) (fuel : nat) :
  Type_ k = KeyEnter ->
  strings_TrimSpace (textinput_Value (um_textInput m)) = "" ->
  usernameModel_Update m (KeyMsg k) = Ret (UsernameModel m, Nil)
  /\ run w (S fuel) (usernameModel_Update m (KeyMsg k))
     = Some ((UsernameModel m, Nil), []).
Proof.
  intros Hk Hempty. unfold usernameModel_Update. rewrite Hk, Hempty.
  split; reflexivity.
Qed.

(** C4. Esc in the identity controller: with an empty [username] it returns
    [tea.Quit]; otherwise it returns [rootModel] and no command, as a leaf of
    the interaction tree (no fetch).  When the controller was entered from
    browse state [b] ([change_identity_key]) and has handled any messages
    since, [username] is still [b]'s and [rootModel] is still [b], the very
    record, list widget and selection included. *)
Theorem identity_cancel_returns_to_browse (m : usernameModel) (k : Key)
    (b : repoModel) (msgs : list Msg) :
  Type_ k = KeyEsc ->
  editing (prepUsernameModel (rm_username b) b) msgs m ->
  usernameModel_Update m (KeyMsg k)
  = Ret (if String.eqb (um_username m) ""
         then (UsernameModel m, Quit)
         else (RepoModel (um_rootModel m), Nil))
  /\ um_username m = rm_username b
  /\ um_rootModel m = b
  /\ (rm_username b <> "" ->
      forall (w : World) (fuel : nat),
        run w (S fuel) (usernameModel_Update m (KeyMsg k))
        = Some ((RepoModel b, Nil), [])).
Proof.
  intros Hk Hedit.
  destruct (editing_keeps_identity _ _ _ Hedit) as [Hu Hr]. simpl in Hu, Hr.
  assert (Hupd : usernameModel_Update m (KeyMsg k)
                 = Ret (if String.eqb (um_username m) ""
                        then (UsernameModel m, Quit)
                        else (RepoModel (um_rootModel m), Nil))).
  { unfold usernameModel_Update. rewrite Hk.
    destruct (String.eqb (um_username m) ""); reflexivity. }
  repeat split; try assumption.
  intros Hne w fuel. rewrite Hupd, Hu, Hr.
  destruct (String.eqb_spec (rm_username b) "") as [Heq | _]; [contradiction|].
  reflexivity.
Qed.

(** ** The browse controller *)

Lemma set_list_same (m : repoModel) : set_list m (rm_list m) = m.
Proof. destruct m. reflexivity. Qed.

Lemma widget_cmd_no_clone (c : LibCmd) : dispatches_clone (widget_cmd c) = false.
Proof. destruct c; reflexivity. Qed.

(** While a clone is running none of the three key cases applies: every
    key goes to the list widget. *)
Lemma cloning_key_goes_to_list (m : repoModel) (k : Key) :
  rm_cloning m = true ->
  repoModel_Update m (KeyMsg k) = forward_to_list m (KeyMsg k).
Proof.
  intros Hc. unfold repoModel_Update. rewrite Hc. simpl negb.
  rewrite !andb_false_r. reflexivity.
Qed.

Lemma cloning_confirms (msgs : list Msg) :
  forall m : repoModel,
    rm_cloning m = true ->
    forallb is_confirm msgs = true ->
    exists (l : list_Model) (cmds : list Cmd),
      browse m msgs = Some (set_list m l, cmds)
      /\ List.length cmds = List.length msgs
      /\ forallb (fun c => negb (dispatches_clone c)) cmds = true.
Proof.
  induction msgs as [|msg msgs IH]; intros m Hc Hall.
  - exists (rm_list m), []. rewrite set_list_same. repeat split; reflexivity.
  - simpl in Hall. apply andb_prop in Hall as [Hmsg Hall].
    destruct msg as [k | | | |]; try discriminate Hmsg.
    cbn [browse]. rewrite (cloning_key_goes_to_list m k Hc).
    unfold forward_to_list.
    destruct (list_Update (rm_list m) (KeyMsg k)) as [l cmd].
    destruct (IH (set_list m l) Hc Hall) as (l' & cmds & Hrun & Hlen & Hno).
    rewrite Hrun. exists l', (widget_cmd cmd :: cmds).
    repeat split.
    + simpl. rewrite Hlen. reflexivity.
    + simpl. rewrite widget_cmd_no_clone, Hno. reflexivity.
Qed.

(** C5. While [cloning] is set, any number of confirm keys in a row leave
    the controller in place with [cloning], [cloneMsg] and [cloneError] as
    they were (only the list widget, which receives the keys, may change),
    and none of the commands returned starts a clone. *)
Theorem confirm_while_cloning_is_guarded (m : repoModel) (msgs : list Msg) :
  rm_cloning m = true ->
  forallb is_confirm msgs = true ->
  exists (m' : repoModel) (cmds : list Cmd),
    browse m msgs = Some (m', cmds)
    /\ m' = set_list m (rm_list m')
    /\ rm_cloning m' = true
    /\ rm_cloneMsg m' = rm_cloneMsg m
    /\ rm_cloneError m' = rm_cloneError m
    /\ List.length cmds = List.length msgs
    /\ forallb (fun c => negb (dispatches_clone c)) cmds = true.
Proof.
  intros Hc Hall.
  destruct (cloning_confirms msgs m Hc Hall) as (l & cmds & Hrun & Hlen & Hno).
  exists (set_list m l), cmds. repeat split; try assumption; reflexivity.
Qed.

(** The command [cloneRepo(url)] makes one call, [git clone url], and sends
    the message [cloneFinished] makes of its outcome. *)
Lemma cloneRepo_run (w : World) (fuel : nat) (u output : string)
    (status : option error) :
  exec w "git" ["clone"; u] = (output, status) ->
  run w (S (S fuel)) (cloneRepo u)
  = Some (cloneFinished status output u, [CallCombinedOutput "git" ["clone"; u]]).
Proof.
  intros Hexec. unfold cloneRepo. rewrite run_trigger_bind.
  simpl answer. rewrite Hexec. reflexivity.
Qed.

Lemma confirm_without_selection (m : repoModel) (k : Key) :
  Key_String k = "enter" -> rm_cloning m = false ->
  list_SelectedItem (rm_list m) = None ->
  repoModel_Update m (KeyMsg k)
  = Panic "interface conversion: list.Item is nil, not internals.item".
Proof.
  intros Hk Hc Hsel. unfold repoModel_Update. rewrite Hk, Hc, Hsel. reflexivity.
Qed.

(** A confirm key with an item selected and no clone running sets
    [cloning] and the "Cloning <name>..." text, and returns the batch of the
    spinner tick and [cloneRepo] of the selected item's URL. *)
Lemma confirm_with_selection (m : repoModel) (k : Key) (it : item) :
  Key_String k = "enter" -> rm_cloning m = false ->
  list_SelectedItem (rm_list m) = Some it ->
  repoModel_Update m (KeyMsg k)
  = Ok (RepoModel
          (set_clone m true ("Cloning " ++ name it ++ "...") (rm_cloneError m)),
        Batch [SpinnerTick (rm_spinner m); CloneRepo (url it)]).
Proof.
  intros Hk Hc Hsel. unfold repoModel_Update. rewrite Hk, Hc, Hsel. reflexivity.
Qed.

(** The terminate key when no clone is running: [Update] returns the
    model unchanged with [tea.Quit]. *)
Lemma terminate_when_idle (m : repoModel) (k : Key) :
  Key_String k = "ctrl+c" -> rm_cloning m = false ->
  repoModel_Update m (KeyMsg k) = Ok (RepoModel m, Quit).
Proof.
  intros Hk Hc. unfold repoModel_Update. rewrite Hk, Hc. reflexivity.
Qed.

(** Every browse state [initialModel] builds carries the default key map,
    and [repoModel.Update] keeps it. *)
Lemma browse_state_keys (username : string)
    (fetched : list Repository * option error) :
  list_DefaultKeyMap (rm_list (browse_state username fetched)).
Proof.
  destruct fetched as [[|r repos] [e|]]; simpl;
    try apply list_New_keys.
  apply list_SetSize_keys, list_SetAdditionalHelpKeys_keys, list_SetTitle_keys,
    list_New_keys.
Qed.

Lemma repoModel_Update_keys (m m' : repoModel) (msg : Msg) (c : Cmd) :
  list_DefaultKeyMap (rm_list m) ->
  repoModel_Update m msg = Ok (RepoModel m', c) ->
  list_DefaultKeyMap (rm_list m').
Proof.
  intros Hkeys.
  assert (Hfwd : forall m0 : repoModel,
             list_DefaultKeyMap (rm_list m0) ->
             forward_to_list m0 msg = Ok (RepoModel m', c) ->
             list_DefaultKeyMap (rm_list m')).
  { intros m0 H0. unfold forward_to_list.
    pose proof (list_Update_keys (rm_list m0) msg H0) as Hupd.
    destruct (list_Update (rm_list m0) msg) as [l cmd]. intros H.
    injection H as <- _. exact Hupd. }
  unfold repoModel_Update. destruct msg as [k | w h | err dir | i t | n].
  - destruct (String.eqb (Key_String k) "ctrl+c" && negb (rm_cloning m)).
    { intros H. injection H as <- _. exact Hkeys. }
    destruct (String.eqb (Key_String k) "enter" && negb (rm_cloning m)).
    { destruct (list_SelectedItem (rm_list m)); [|discriminate].
      intros H. injection H as <- _. exact Hkeys. }
    destruct (String.eqb (Key_String k) "c" && negb (rm_cloning m)); [discriminate|].
    apply Hfwd, Hkeys.
  - cbv beta iota zeta delta [normalStyle_GetFrameSize].
    apply Hfwd. simpl. apply list_SetSize_keys, Hkeys.
  - destruct err; intros H; injection H as <- _; exact Hkeys.
  - destruct (spinner_Update (rm_spinner m) (spinner_TickMsg i t)) as [sp cmd].
    intros H. injection H as <- _. exact Hkeys.
  - apply Hfwd, Hkeys.
Qed.

Lemma browse_keeps_keys (msgs : list Msg) :
  forall (m m' : repoModel) (cmds : list Cmd),
    list_DefaultKeyMap (rm_list m) ->
    browse m msgs = Some (m', cmds) ->
    list_DefaultKeyMap (rm_list m').
Proof.
  induction msgs as [|msg msgs IH]; intros m m' cmds Hkeys Hrun; simpl in Hrun.
  - injection Hrun as <- _. exact Hkeys.
  - destruct (repoModel_Update m msg) as [[[m1 | um] c] | r] eqn:Hupd;
      try discriminate Hrun.
    destruct (browse m1 msgs) as [[m2 cs]|] eqn:Hrest; [|discriminate Hrun].
    injection Hrun as <- _.
    apply (IH m1 m2 cs); [|exact Hrest].
    apply (repoModel_Update_keys m m1 msg c Hkeys Hupd).
Qed.

(** A list with the default key map answers ctrl+c itself. *)
Lemma cloning_ctrl_c_reaches_list (m : repoModel) (k : Key) :
  list_DefaultKeyMap (rm_list m) ->
  Key_String k = "ctrl+c" -> rm_cloning m = true ->
  repoModel_Update m (KeyMsg k) = Ok (RepoModel m, Quit).
Proof.
  intros Hkeys Hk Hc. rewrite (cloning_key_goes_to_list m k Hc).
  unfold forward_to_list. rewrite (list_Update_ForceQuit _ _ Hkeys Hk).
  rewrite set_list_same. reflexivity.
Qed.

(** C9, what the code does.  In every state the browse controller reaches
    from the one [initialModel] built, while [cloning] is set: the
    controller's own ctrl+c case is skipped, but the key then reaches
    [m.list.Update], whose default key map answers ctrl+c with [tea.Quit];
    [Update] returns that command, and the program quits during the clone
    all the same. *)
Theorem terminate_while_cloning_still_quits (username : string)
    (fetched : list Repository * option error) (msgs : list Msg)
    (m : repoModel) (cmds : list Cmd) (k : Key) :
  browse (browse_state username fetched) msgs = Some (m, cmds) ->
  rm_cloning m = true ->
  Key_String k = "ctrl+c" ->
  repoModel_Update m (KeyMsg k) = Ok (RepoModel m, Quit).
Proof.
  intros Hrun Hc Hk. apply cloning_ctrl_c_reaches_list; try assumption.
  apply (browse_keeps_keys msgs _ m cmds (browse_state_keys username fetched) Hrun).
Qed.

End Controllers.

(** ** Construction of the browse state and start-up *)

Section Startup.
Context {B : Bubbles}.

Lemma initialModel_run (w : World) (fuel : nat) (username : string)
    (fetched : list Repository * option error) (calls : list Call) :
  run w fuel (fetchRepos username) = Some (fetched, calls) ->
  run w (fuel + 1) (initialModel username)
  = Some (browse_state username fetched, calls).
Proof.
  intros Hfetch. unfold initialModel.
  rewrite <- (app_nil_r calls).
  apply run_bind with (a := fetched); [exact Hfetch|].
  destruct fetched as [repos [e|]]; [reflexivity|].
  destruct repos as [|r repos]; [reflexivity|].
  unfold browse_state.
  replace (Z.of_nat (List.length (r :: repos)) <=? 0) with false
    by (symmetry; apply Z.leb_gt; simpl List.length; lia).
  reflexivity.
Qed.

Lemma initialModel_paged (getenv : string -> string)
    (execfn : string -> list string -> string * option error)
    (username : string) (pages : list (list Repository + error)) (extra : nat) :
  exists calls,
    run (paged_world getenv execfn pages) (2 * List.length pages + 4 + extra)
      (initialModel username)
    = Some (browse_state username (fetch_outcome [] pages), calls).
Proof.
  destruct (fetchRepos_paged getenv execfn username pages extra) as [calls Hcalls].
  exists calls.
  replace (2 * List.length pages + 4 + extra)%nat
    with (2 * List.length pages + 3 + extra + 1)%nat by lia.
  apply initialModel_run, Hcalls.
Qed.

(** C2, what the code does.  When the fetch fails or lists nothing,
    [initialModel] returns a browse state all the same, with an empty list
    widget and [cloning] unset; in that state a confirm key makes [Update]
    panic on the type assertion of the missing selection. *)
Theorem confirm_on_empty_browse_state_panics
    (getenv : string -> string)
    (execfn : string -> list string -> string * option error)
    (username : string) (pages : list (list Repository + error)) (extra : nat)
    (k : Key) :
  Key_String k = "enter" ->
  (exists e, all_pages pages = inr e) \/ all_pages pages = inl [] ->
  exists (m : repoModel) (calls : list Call),
    run (paged_world getenv execfn pages) (2 * List.length pages + 4 + extra)
      (initialModel username)
    = Some (m, calls)
    /\ rm_list m = list_New [] 0 0
    /\ rm_cloning m = false
    /\ repoModel_Update m (KeyMsg k)
       = Panic "interface conversion: list.Item is nil, not internals.item".
Proof.
  intros Hk Hpages.
  destruct (initialModel_paged getenv execfn username pages extra) as [calls Hcalls].
  exists (browse_state username (fetch_outcome [] pages)), calls.
  split; [exact Hcalls|].
  assert (Hstate :
    rm_list (browse_state username (fetch_outcome [] pages)) = list_New [] 0 0
    /\ rm_cloning (browse_state username (fetch_outcome [] pages)) = false).
  { unfold fetch_outcome. destruct Hpages as [[e He] | He]; rewrite He;
      split; reflexivity. }
  destruct Hstate as [Hl Hc]. repeat split; try assumption.
  apply confirm_without_selection; try assumption.
  rewrite Hl. apply list_SelectedItem_New_nil.
Qed.

(** X2. Start-up when [git config user.name] fails and prints nothing but
    white space: after that one call the program opens the identity
    controller, seeded with the empty username, its text field empty. *)
Theorem startup_identity_when_read_fails_empty (w : World) (fuel : nat)
    (out : string) (e : error) :
  exec w "git" ["config"; "user.name"] = (out, Some e) ->
  strings_TrimSpace out = "" ->
  run w (S (S fuel)) BbltRun_model
  = Some (UsernameModel (prepUsernameModel "" repoModel_zero),
          [CallCombinedOutput "git" ["config"; "user.name"]])
  /\ um_username (prepUsernameModel "" repoModel_zero) = ""
  /\ textinput_Value (um_textInput (prepUsernameModel "" repoModel_zero)) = "".
Proof.
  intros Hexec Hout. split; [|split; [reflexivity | apply textinput_Value_empty]].
  unfold BbltRun_model. rewrite run_trigger_bind.
  simpl answer. rewrite Hexec. cbv beta iota zeta. rewrite Hout. reflexivity.
Qed.

Lemma BbltRun_model_browse (w : World) (fuel : nat) (out : string)
    (err : option error) (m : repoModel) (calls : list Call) :
  exec w "git" ["config"; "user.name"] = (out, err) ->
  err = None \/ strings_TrimSpace out <> "" ->
  run w fuel (initialModel (strings_TrimSpace out)) = Some (m, calls) ->
  run w (S (fuel + 1)) BbltRun_model
  = Some (RepoModel m, CallCombinedOutput "git" ["config"; "user.name"] :: calls).
Proof.
  intros Hexec Hcase Hinit. unfold BbltRun_model. rewrite run_trigger_bind.
  simpl answer. rewrite Hexec. cbv beta iota zeta.
  assert (Hcond :
    (match err with Some _ => true | None => false end)
    && String.eqb (strings_TrimSpace out) "" = false).
  { destruct Hcase as [-> | Hne]; [reflexivity|].
    apply andb_false_iff. right. apply String.eqb_neq, Hne. }
  rewrite Hcond.
  rewrite (run_bind w fuel _ m calls Hinit 1
             (fun rm => Ret (RepoModel rm)) (RepoModel m) []); [|reflexivity].
  rewrite app_nil_r. reflexivity.
Qed.

(** C3, what the code does.  When [git config user.name] succeeds and
    prints nothing but white space, the program does not open the identity
    controller: it fetches the repositories of the empty username and
    starts in the browse state built from them.  When the command fails
    but has printed something, that output is taken for the username. *)
Theorem startup_browses_unless_failed_and_empty
    (getenv : string -> string)
    (execfn : string -> list string -> string * option error)
    (out : string) (err : option error)
    (pages : list (list Repository + error)) (extra : nat) :
  execfn "git" ["config"; "user.name"] = (out, err) ->
  err = None \/ strings_TrimSpace out <> "" ->
  exists calls : list Call,
    run (paged_world getenv execfn pages) (2 * List.length pages + 6 + extra)
      BbltRun_model
    = Some (RepoModel
              (browse_state (strings_TrimSpace out) (fetch_outcome [] pages)),
            CallCombinedOutput "git" ["config"; "user.name"] :: calls).
Proof.
  intros Hexec Hcase.
  destruct (initialModel_paged getenv execfn (strings_TrimSpace out) pages extra)
    as [calls Hcalls].
  exists calls.
  replace (2 * List.length pages + 6 + extra)%nat
    with (S (2 * List.length pages + 4 + extra + 1)) by lia.
  apply BbltRun_model_browse with (out := out) (err := err); assumption.
Qed.

(** X6. Enter in the identity controller with a text that does not trim to
    the empty string: before [Update] returns, the controller fetches the
    repositories of the trimmed text, and of no other user.  In every world
    the calls it makes and the browse state it returns are those of
    [fetchRepos] on the trimmed text; against an API that serves pages, the
    calls are the token read and then one request per page, each naming the
    trimmed text as the user.  The next model is the browse state built
    from that fetch alone, with no command. *)
Theorem identity_confirm_fetches_afresh (m : usernameModel) (k : Key) :
  Type_ k = KeyEnter ->
  strings_TrimSpace (textinput_Value (um_textInput m)) <> "" ->
  (forall (w : World) (fuel : nat) (fetched : list Repository * option error)
          (calls : list Call),
      run w fuel (fetchRepos (strings_TrimSpace (textinput_Value (um_textInput m))))
      = Some (fetched, calls) ->
      run w (fuel + 2) (usernameModel_Update m (KeyMsg k))
      = Some ((RepoModel
                 (browse_state (strings_TrimSpace (textinput_Value (um_textInput m)))
                    fetched),
               Nil),
              calls))
  /\ (forall (getenv : string -> string)
             (execfn : string -> list string -> string * option error)
             (pages : list (list Repository + error)) (extra : nat),
         run (paged_world getenv execfn pages) (2 * List.length pages + 5 + extra)
           (usernameModel_Update m (KeyMsg k))
         = Some ((RepoModel
                    (browse_state
                       (strings_TrimSpace (textinput_Value (um_textInput m)))
                       (fetch_outcome [] pages)),
                  Nil),
                 CallGetenv "GITHUB_TOKEN"
                 :: page_requests (client_for (getenv "GITHUB_TOKEN"))
                      (strings_TrimSpace (textinput_Value (um_textInput m))) 0 0
                      pages)).
Proof.
  intros Hk Hne.
  assert (Hgen : forall (w : World) (fuel : nat)
                        (fetched : list Repository * option error)
                        (calls : list Call),
             run w fuel
               (fetchRepos (strings_TrimSpace (textinput_Value (um_textInput m))))
             = Some (fetched, calls) ->
             run w (fuel + 2) (usernameModel_Update m (KeyMsg k))
             = Some ((RepoModel
                        (browse_state
                           (strings_TrimSpace (textinput_Value (um_textInput m)))
                           fetched),
                      Nil),
                     calls)).
  { intros w fuel fetched calls Hfetch.
    unfold usernameModel_Update. rewrite Hk.
    apply String.eqb_neq in Hne. rewrite Hne.
    replace (fuel + 2)%nat with (fuel + 1 + 1)%nat by lia.
    rewrite <- (app_nil_r calls).
    apply run_bind
      with (a := browse_state
                   (strings_TrimSpace (textinput_Value (um_textInput m))) fetched);
      [apply initialModel_run, Hfetch | reflexivity]. }
  split; [exact Hgen|].
  intros getenv execfn pages extra.
  replace (2 * List.length pages + 5 + extra)%nat
    with (2 * List.length pages + 3 + extra + 2)%nat by lia.
  apply Hgen, fetchRepos_paged_calls.
Qed.

End Startup.

(** ** The directory name *)

Lemma byte_is_slash (c : ascii) : byte_is c 47 = true <-> c = "/"%char.
Proof.
  unfold byte_is. rewrite Nat.eqb_eq. split.
  - intros H. rewrite <- (ascii_nat_embedding c), H. reflexivity.
  - intros ->. reflexivity.
Qed.

Lemma prefix_slash (c : ascii) (s : string) :
  prefix "/" (String c s) = byte_is c 47.
Proof.
  cbn [prefix]. destruct (ascii_dec "/" c) as [<- | Hne].
  - destruct s; reflexivity.
  - destruct (byte_is c 47) eqn:Hc; [|reflexivity].
    apply byte_is_slash in Hc. congruence.
Qed.

Lemma length_append (a b : string) :
  String.length (a ++ b) = (String.length a + String.length b)%nat.
Proof. induction a as [|c a IH]; simpl; [reflexivity | rewrite IH; reflexivity]. Qed.

Lemma append_assoc (a b c : string) : (a ++ b) ++ c = a ++ b ++ c.
Proof. induction a as [|x a IH]; simpl; [reflexivity | rewrite IH; reflexivity]. Qed.

Lemma append_nil_r (a : string) : a ++ "" = a.
Proof. induction a as [|x a IH]; simpl; [reflexivity | rewrite IH; reflexivity]. Qed.

Lemma list_ascii_append (a b : string) :
  list_ascii_of_string (a ++ b)
  = (list_ascii_of_string a ++ list_ascii_of_string b)%list.
Proof. induction a as [|x a IH]; simpl; [reflexivity | rewrite IH; reflexivity]. Qed.

Lemma substring_front (a b : string) : substring 0 (String.length a) (a ++ b) = a.
Proof.
  induction a as [|x a IH]; simpl.
  - destruct b; reflexivity.
  - rewrite IH. reflexivity.
Qed.

Lemma substring_whole (s : string) : substring 0 (String.length s) s = s.
Proof. induction s as [|c s IH]; simpl; [reflexivity | rewrite IH; reflexivity]. Qed.

Lemma substring_middle (a b c : string) :
  substring (String.length a) (String.length b) (a ++ b ++ c) = b.
Proof.
  induction a as [|x a IH]; simpl; [apply substring_front | exact IH].
Qed.

Lemma substring_back (a b : string) :
  substring (String.length a) (String.length b) (a ++ b) = b.
Proof.
  pose proof (substring_middle a b "") as H. rewrite append_nil_r in H. exact H.
Qed.

Lemma substring_split (n : nat) :
  forall s : string,
    (n <= String.length s)%nat ->
    substring 0 n s ++ substring n (String.length s - n) s = s.
Proof.
  induction n as [|n IH]; intros s Hn.
  - rewrite Nat.sub_0_r.
    replace (substring 0 0 s) with "" by (destruct s; reflexivity).
    apply substring_whole.
  - destruct s as [|c s]; simpl in Hn; [lia|].
    simpl. rewrite IH by lia. reflexivity.
Qed.

Lemma HasSuffix_split (s suffix : string) :
  HasSuffix s suffix = true -> exists body, s = body ++ suffix.
Proof.
  unfold HasSuffix. intros H. apply andb_prop in H as [Hlen Heq].
  apply Nat.leb_le in Hlen. apply String.eqb_eq in Heq.
  exists (substring 0 (String.length s - String.length suffix) s).
  assert (Hs := substring_split (String.length s - String.length suffix) s
                  (Nat.le_sub_l _ _)).
  replace (String.length s - (String.length s - String.length suffix))%nat
    with (String.length suffix) in Hs by lia.
  rewrite Heq in Hs. symmetry. exact Hs.
Qed.

Lemma no_slash_append (a b : string) :
  no_slash (a ++ b) = no_slash a && no_slash b.
Proof.
  induction a as [|c a IH]; simpl; [reflexivity|].
  rewrite IH, andb_assoc. reflexivity.
Qed.

(** A text is free of slashes, or it is [d ++ "/" ++ seg] with [seg] free
    of slashes. *)
Lemma split_at_last_slash (s : string) :
  no_slash s = true
  \/ exists d seg, s = d ++ "/" ++ seg /\ no_slash seg = true.
Proof.
  induction s as [|c s IH]; [left; reflexivity|].
  destruct IH as [Hs | (d & seg & -> & Hseg)].
  - destruct (byte_is c 47) eqn:Hc.
    + right. exists "", s. apply byte_is_slash in Hc. subst c. split; [reflexivity | exact Hs].
    + left. simpl. rewrite Hc, Hs. reflexivity.
  - right. exists (String c d), seg. split; [reflexivity | exact Hseg].
Qed.

Lemma LastIndex_no_slash (s : string) :
  forall i : Z, no_slash s = true -> LastIndex_from i s "/" = -1.
Proof.
  induction s as [|c s IH]; intros i H; [reflexivity|].
  simpl in H. apply andb_prop in H as [Hc Hs]. apply negb_true_iff in Hc.
  cbn [LastIndex_from]. rewrite (IH _ Hs), prefix_slash, Hc. reflexivity.
Qed.

Lemma LastIndex_last_slash (d seg : string) :
  forall i : Z,
    0 <= i -> no_slash seg = true ->
    LastIndex_from i (d ++ "/" ++ seg) "/" = i + len d.
Proof.
  induction d as [|c d IH]; intros i Hi Hseg.
  - change ("" ++ "/" ++ seg) with (String "/" seg).
    cbn [LastIndex_from]. rewrite (LastIndex_no_slash _ _ Hseg), prefix_slash.
    unfold len. simpl. lia.
  - change (String c d ++ "/" ++ seg) with (String c (d ++ "/" ++ seg)).
    cbn [LastIndex_from]. rewrite (IH (i + 1)) by (assumption || lia).
    unfold len. simpl String.length.
    replace (0 <=? i + 1 + Z.of_nat (String.length d)) with true
      by (symmetry; apply Z.leb_le; lia).
    lia.
Qed.

Lemma until_slash_free (p : list ascii) (q : list ascii) :
  forallb (fun c => negb (byte_is c 47)) p = true ->
  q = [] \/ (exists q', q = "/"%char :: q') ->
  until_slash (p ++ q) = p.
Proof.
  intros Hp Hq. induction p as [|c p IH]; simpl in *.
  - destruct Hq as [-> | [q' ->]]; reflexivity.
  - apply andb_prop in Hp as [Hc Hp]. apply negb_true_iff in Hc.
    rewrite Hc, (IH Hp). reflexivity.
Qed.

Lemma no_slash_chars (s : string) :
  no_slash s = true ->
  forallb (fun c => negb (byte_is c 47)) (rev (list_ascii_of_string s)) = true.
Proof.
  intros H. apply forallb_forall. intros c Hc. apply in_rev in Hc.
  revert Hc. induction s as [|x s IH]; simpl in *; [contradiction|].
  apply andb_prop in H as [Hx Hs]. intros [<- | Hc]; [exact Hx | exact (IH Hs Hc)].
Qed.

Lemma last_path_segment_free (seg : string) :
  no_slash seg = true -> last_path_segment seg = seg.
Proof.
  intros H. unfold last_path_segment.
  rewrite <- (app_nil_r (rev (list_ascii_of_string seg))).
  rewrite until_slash_free; [| apply no_slash_chars, H | left; reflexivity].
  rewrite rev_involutive. apply string_of_list_ascii_of_string.
Qed.

Lemma last_path_segment_after_slash (d seg : string) :
  no_slash seg = true -> last_path_segment (d ++ "/" ++ seg) = seg.
Proof.
  intros H. unfold last_path_segment.
  rewrite !list_ascii_append, !rev_app_distr. simpl rev at 2.
  rewrite <- app_assoc.
  rewrite until_slash_free;
    [| apply no_slash_chars, H | right; eexists; reflexivity].
  rewrite rev_involutive. apply string_of_list_ascii_of_string.
Qed.

Lemma TrimSuffix_append (a suffix : string) : TrimSuffix (a ++ suffix) suffix = a.
Proof.
  unfold TrimSuffix, HasSuffix. rewrite length_append.
  replace (String.length a + String.length suffix - String.length suffix)%nat
    with (String.length a) by lia.
  rewrite substring_back.
  rewrite String.eqb_refl.
  replace (String.length suffix <=? String.length a + String.length suffix)%nat
    with true by (symmetry; apply Nat.leb_le; lia).
  simpl. apply substring_front.
Qed.

Lemma go_slice_middle (a b c : string) :
  go_slice (a ++ b ++ c) (len a) (len a + len b) = Ok b.
Proof.
  unfold go_slice, len. rewrite !length_append.
  replace ((0 <=? Z.of_nat (String.length a))
           && (Z.of_nat (String.length a)
               <=? Z.of_nat (String.length a) + Z.of_nat (String.length b))
           && (Z.of_nat (String.length a) + Z.of_nat (String.length b)
               <=? Z.of_nat (String.length a + (String.length b + String.length c))))
    with true by (symmetry; rewrite !andb_true_iff, !Z.leb_le; lia).
  rewrite Nat2Z.id.
  replace (Z.to_nat (Z.of_nat (String.length a) + Z.of_nat (String.length b)
                     - Z.of_nat (String.length a)))
    with (String.length b) by lia.
  rewrite substring_middle. reflexivity.
Qed.

(** X1. On a URL that ends in [.git] the slice of [cloneRepo] is in bounds and
    is the directory name of the specification: the last path segment
    without the suffix. *)
Theorem cloneDir_of_git_url (u : string) :
  HasSuffix u ".git" = true -> cloneDir u = Ok (directoryName u).
Proof.
  intros H. apply HasSuffix_split in H as [body ->].
  unfold cloneDir, directoryName.
  destruct (split_at_last_slash body) as [Hfree | (d & seg & -> & Hseg)].
  - assert (Hall : no_slash (body ++ ".git") = true)
      by (rewrite no_slash_append, Hfree; reflexivity).
    assert (E1 : strings_LastIndex (body ++ ".git") "/" + 1 = len "").
    { unfold strings_LastIndex. rewrite (LastIndex_no_slash _ _ Hall). reflexivity. }
    assert (E2 : len (body ++ ".git") - 4 = len "" + len body).
    { unfold len. rewrite length_append. simpl. lia. }
    pose proof (go_slice_middle "" body ".git") as G.
    change ("" ++ body ++ ".git") with (body ++ ".git") in G.
    rewrite E1, E2, G.
    rewrite (last_path_segment_free _ Hall), TrimSuffix_append. reflexivity.
  - assert (Hall : no_slash (seg ++ ".git") = true)
      by (rewrite no_slash_append, Hseg; reflexivity).
    assert (Eu : (d ++ "/" ++ seg) ++ ".git" = (d ++ "/") ++ seg ++ ".git")
      by (rewrite !append_assoc; reflexivity).
    assert (E1 : strings_LastIndex ((d ++ "/") ++ seg ++ ".git") "/" + 1
                 = len (d ++ "/")).
    { unfold strings_LastIndex. rewrite append_assoc.
      rewrite (LastIndex_last_slash _ _ 0 (Z.le_refl 0) Hall).
      unfold len. rewrite length_append. simpl. lia. }
    assert (E2 : len ((d ++ "/") ++ seg ++ ".git") - 4 = len (d ++ "/") + len seg).
    { unfold len. rewrite !length_append. simpl. lia. }
    rewrite Eu, E1, E2, (go_slice_middle (d ++ "/") seg ".git").
    rewrite append_assoc.
    rewrite (last_path_segment_after_slash _ _ Hall), TrimSuffix_append.
    reflexivity.
Qed.

(** C1, what the code does.  [cloneRepo] cuts the last four bytes off the
    text after the last slash, whatever they are: right for a URL that ends
    in [.git], wrong for one that does not ("my" for "myrepo", which the
    screen then reports), and a panic when fewer than four bytes follow the
    slash. *)
Theorem cloneDir_cuts_four_bytes :
  cloneDir "https://github.com/user/myrepo.git" = Ok "myrepo"
  /\ directoryName "https://github.com/user/myrepo.git" = "myrepo"
  /\ cloneDir "https://github.com/user/myrepo" = Ok "my"
  /\ directoryName "https://github.com/user/myrepo" = "myrepo"
  /\ run (paged_world Scenario.no_env (Scenario.git_says "" None) []) 2
       (cloneRepo "https://github.com/user/myrepo")
     = Some (Ok (cloneFinishedMsg None "my"),
             [CallCombinedOutput "git" ["clone"; "https://github.com/user/myrepo"]])
  /\ repoModel_View (clone_finished Scenario.cloning None "my")
     = CloneResultScreen (list_View (rm_list Scenario.cloning)) false
         "Successfully cloned to my/"
  /\ cloneDir "a/b" = Panic "slice bounds out of range"
  /\ run (paged_world Scenario.no_env (Scenario.git_says "" None) []) 2
       (cloneRepo "a/b")
     = Some (Panic "slice bounds out of range",
             [CallCombinedOutput "git" ["clone"; "a/b"]]).
Proof. repeat split; vm_compute; reflexivity. Qed.

(** * The rest of the browse controller *)

Section BrowseController.
Context {B : Bubbles}.

Lemma forward_to_list_result (m : repoModel) (msg : Msg) :
  exists (l : list_Model) (cmd : LibCmd),
    forward_to_list m msg = Ok (RepoModel (set_list m l), widget_cmd cmd).
Proof.
  unfold forward_to_list.
  destruct (list_Update (rm_list m) msg) as [l cmd]. exists l, cmd. reflexivity.
Qed.

Lemma repoModel_Update_cases (m : repoModel) (msg : Msg) :
  update_case m msg (repoModel_Update m msg).
Proof.
  unfold repoModel_Update. destruct msg as [k | w h | err dir | i t | n].
  - destruct (rm_cloning m) eqn:Hc; simpl negb; rewrite ?andb_false_r, ?andb_true_r.
    + destruct (forward_to_list_result m (KeyMsg k)) as (l & cmd & ->).
      apply (case_list m (KeyMsg k) l cmd);
        [reflexivity | intros _; exact Hc | intros ? _ _; exact Hc].
    + destruct (String.eqb (Key_String k) "ctrl+c") eqn:Hq.
      { apply String.eqb_eq in Hq. apply (case_quit m (KeyMsg k) k); auto. }
      destruct (String.eqb (Key_String k) "enter") eqn:He.
      { destruct (list_SelectedItem (rm_list m)) as [it|] eqn:Hsel.
        - apply (case_clone m (KeyMsg k) it); assumption.
        - apply (case_panic m (KeyMsg k)); assumption. }
      destruct (String.eqb (Key_String k) "c") eqn:Hk.
      { apply String.eqb_eq in Hk. apply (case_identity m (KeyMsg k) k); auto. }
      destruct (forward_to_list_result m (KeyMsg k)) as (l & cmd & ->).
      apply (case_list m (KeyMsg k) l cmd); [reflexivity | simpl; congruence |].
      intros k' Hk' Hc'. injection Hk' as <-. rewrite Hc' in Hk. discriminate Hk.
  - cbv beta iota zeta delta [normalStyle_GetFrameSize].
    destruct (forward_to_list_result
                (set_list m (list_SetSize (rm_list m) (w - 4) (h - 2)))
                (WindowSizeMsg w h)) as (l & cmd & ->).
    apply (case_list m (WindowSizeMsg w h) l cmd);
      [reflexivity | discriminate | discriminate].
  - replace (match err with
             | Some e => Ok (RepoModel (set_clone m false ("Error cloning: " ++ e) true), Nil)
             | None =>
                 Ok (RepoModel
                       (set_clone m false ("Successfully cloned to " ++ dir ++ "/") false),
                     Nil)
             end)
      with (Ok (RepoModel (clone_finished m err dir), @Nil B))
      by (destruct err; reflexivity).
    apply (case_finished m _ err dir). reflexivity.
  - destruct (spinner_Update (rm_spinner m) (spinner_TickMsg i t)) as [sp cmd].
    apply (case_tick m (spinner_TickMsg i t) sp cmd);
      [reflexivity | reflexivity | discriminate].
  - destruct (forward_to_list_result m (OtherMsg n)) as (l & cmd & ->).
    apply (case_list m (OtherMsg n) l cmd); [reflexivity | discriminate | discriminate].
Qed.

End BrowseController.

(** Case analysis on an equation [H : repoModel_Update m msg = _]. *)
Ltac update_cases m msg H :=
  let Hcase := fresh "Hcase" in
  pose proof (repoModel_Update_cases m msg) as Hcase;
  rewrite H in Hcase; inversion Hcase; subst; clear Hcase.

Section BrowseProperties.
Context {B : Bubbles}.

(** X3. The browse controller starts a clone on one occasion only: a
    confirm key while no clone is running and an item is selected.  The
    command is then the batch of the spinner tick and the clone of exactly
    the selected item's URL, and the controller stays the active model with
    [cloning] set; on every other message, and in every other state, the
    command returned starts no clone. *)
Theorem clone_starts_only_on_idle_confirm (m : repoModel) (msg : Msg) :
  (forall (next : Model) (c : Cmd),
      repoModel_Update m msg = Ok (next, c) ->
      dispatches_clone c = true ->
      is_confirm msg = true /\ rm_cloning m = false
      /\ exists it : item,
          list_SelectedItem (rm_list m) = Some it
          /\ c = Batch [SpinnerTick (rm_spinner m); CloneRepo (url it)]
          /\ next = RepoModel
                      (set_clone m true ("Cloning " ++ name it ++ "...")
                         (rm_cloneError m)))
  /\ (forall it : item,
         is_confirm msg = true -> rm_cloning m = false ->
         list_SelectedItem (rm_list m) = Some it ->
         repoModel_Update m msg
         = Ok (RepoModel
                 (set_clone m true ("Cloning " ++ name it ++ "...") (rm_cloneError m)),
               Batch [SpinnerTick (rm_spinner m); CloneRepo (url it)])).
Proof.
  split.
  - intros next c Hupd Hclone.
    update_cases m msg Hupd; try discriminate Hclone;
      try (rewrite widget_cmd_no_clone in Hclone; discriminate Hclone).
    repeat split; try assumption. exists it. repeat split. assumption.
  - intros it Hmsg Hc Hsel. destruct msg as [k | | | |]; try discriminate Hmsg.
    apply confirm_with_selection; try assumption.
    apply String.eqb_eq, Hmsg.
Qed.

(** X4. [repoModel.Update] panics in exactly one situation: a confirm key
    while no clone is running and the list has no selected item. *)
Theorem Update_panics_only_without_selection (m : repoModel) (msg : Msg) :
  (exists reason, repoModel_Update m msg = Panic reason)
  <-> (is_confirm msg = true /\ rm_cloning m = false
       /\ list_SelectedItem (rm_list m) = None).
Proof.
  split.
  - intros [reason Hupd]. update_cases m msg Hupd. repeat split; assumption.
  - intros (Hmsg & Hc & Hsel). destruct msg as [k | | | |]; try discriminate Hmsg.
    eexists. apply confirm_without_selection; try assumption.
    apply String.eqb_eq, Hmsg.
Qed.

(** X5. The browse controller hands over to the identity controller in
    exactly one situation: the "c" key while no clone is running, also on
    the fetch-error screen and with an empty list.  The identity controller
    is then seeded with the current username, keeps the current browse
    state to return to, and no command is issued. *)
Theorem identity_entered_only_by_idle_c (m : repoModel) (msg : Msg)
    (um : usernameModel) (c : Cmd) :
  repoModel_Update m msg = Ok (UsernameModel um, c)
  <-> ((exists k, msg = KeyMsg k /\ Key_String k = "c")
       /\ rm_cloning m = false
       /\ um = prepUsernameModel (rm_username m) m /\ c = Nil).
Proof.
  split.
  - intros Hupd. update_cases m msg Hupd.
    repeat split; try assumption. eexists. split; [reflexivity | assumption].
  - intros ([k [-> Hk]] & Hc & -> & ->). apply change_identity_key; assumption.
Qed.

(** What one message leaves as it was, when the browse controller stays
    the active model. *)
Lemma browse_step (m m' : repoModel) (msg : Msg) (c : Cmd) :
  repoModel_Update m msg = Ok (RepoModel m', c) ->
  (rm_username m' = rm_username m /\ rm_repos m' = rm_repos m
   /\ rm_err m' = rm_err m)
  /\ (is_confirm msg = false -> is_finished msg = false ->
      rm_cloning m' = rm_cloning m /\ rm_cloneMsg m' = rm_cloneMsg m
      /\ rm_cloneError m' = rm_cloneError m /\ dispatches_clone c = false)
  /\ (rm_cloning m = true ->
      dispatches_clone c = false /\ rm_cloning m' = negb (is_finished msg)
      /\ (is_finished msg = false ->
          rm_cloneMsg m' = rm_cloneMsg m /\ rm_cloneError m' = rm_cloneError m))
  /\ (clones_started [c] + clone_slot m' <= clones_finished [msg] + clone_slot m)%nat.
Proof.
  intros Hupd. update_cases m msg Hupd;
    repeat split; intros;
    try match goal with
        | H : is_finished (cloneFinishedMsg _ _) = false |- _ => discriminate H
        end;
    try reflexivity; try congruence; try apply widget_cmd_no_clone;
    try (destruct err; reflexivity);
    try (match goal with H : is_finished msg = false |- _ => rewrite H end;
         simpl; assumption);
    unfold clones_started, clones_finished, clone_slot; simpl;
    rewrite ?widget_cmd_no_clone;
    try (replace (rm_cloning (clone_finished m err dir)) with false
           by (destruct err; reflexivity));
    repeat match goal with H : rm_cloning m = _ |- _ => rewrite H end;
    try (destruct msg; simpl; lia);
    try (destruct (rm_cloning m); simpl; lia).
Qed.

Lemma browse_cons (m m' : repoModel) (msg : Msg) (rest : list Msg)
    (cmds : list Cmd) :
  browse m (msg :: rest) = Some (m', cmds) ->
  exists (m1 : repoModel) (c : Cmd) (cs : list Cmd),
    repoModel_Update m msg = Ok (RepoModel m1, c)
    /\ browse m1 rest = Some (m', cs) /\ cmds = c :: cs.
Proof.
  cbn [browse]. intros H.
  destruct (repoModel_Update m msg) as [[[m1 | um] c] | r]; try discriminate H.
  destruct (browse m1 rest) as [[m2 cs]|] eqn:Hrest; [|discriminate H].
  injection H as <- <-. exists m1, c, cs. auto.
Qed.

Lemma clones_started_cons (c : Cmd) (cs : list Cmd) :
  clones_started (c :: cs) = (clones_started [c] + clones_started cs)%nat.
Proof. unfold clones_started. simpl. destruct (dispatches_clone c); reflexivity. Qed.

Lemma clones_finished_cons (msg : Msg) (msgs : list Msg) :
  clones_finished (msg :: msgs) = (clones_finished [msg] + clones_finished msgs)%nat.
Proof. unfold clones_finished. simpl. destruct (is_finished msg); reflexivity. Qed.


(** The view is made of [err], the three clone fields and what the two
    widgets draw. *)
Lemma repoModel_View_fields (m m' : repoModel) :
  rm_err m' = rm_err m -> rm_cloning m' = rm_cloning m ->
  rm_cloneMsg m' = rm_cloneMsg m -> rm_cloneError m' = rm_cloneError m ->
  repoModel_View m'
  = repoModel_View (set_spinner (set_list m (rm_list m')) (rm_spinner m')).
Proof.
  intros He Hc Hm Hce. unfold repoModel_View. simpl.
  rewrite He, Hc, Hm, Hce. reflexivity.
Qed.

(** X8. Only confirm keys and clone-completion messages touch the clone
    status.  Any other message is handled without a panic and starts no
    clone; when the browse controller stays the active model, [cloning],
    [cloneMsg] and [cloneError] are as before and the view differs at most
    in what the list widget and the spinner draw; the one other outcome is
    the "c" key while no clone runs, which hands the unchanged browse state
    to the identity controller.  The same holds through any sequence of
    such messages the controller handles. *)
Theorem clone_status_changes_only_on_confirm_and_completion (m : repoModel) :
  (forall msg : Msg,
      is_confirm msg = false -> is_finished msg = false ->
      (exists (m' : repoModel) (c : Cmd),
          repoModel_Update m msg = Ok (RepoModel m', c)
          /\ rm_cloning m' = rm_cloning m
          /\ rm_cloneMsg m' = rm_cloneMsg m
          /\ rm_cloneError m' = rm_cloneError m
          /\ dispatches_clone c = false
          /\ repoModel_View m'
             = repoModel_View (set_spinner (set_list m (rm_list m')) (rm_spinner m')))
      \/ (rm_cloning m = false
          /\ (exists k, msg = KeyMsg k /\ Key_String k = "c")
          /\ repoModel_Update m msg
             = Ok (UsernameModel (prepUsernameModel (rm_username m) m), Nil)))
  /\ (forall (msgs : list Msg) (m' : repoModel) (cmds : list Cmd),
         forallb (fun msg => negb (is_confirm msg) && negb (is_finished msg)) msgs
         = true ->
         browse m msgs = Some (m', cmds) ->
         rm_cloning m' = rm_cloning m
         /\ rm_cloneMsg m' = rm_cloneMsg m
         /\ rm_cloneError m' = rm_cloneError m
         /\ clones_started cmds = 0%nat
         /\ repoModel_View m'
            = repoModel_View (set_spinner (set_list m (rm_list m')) (rm_spinner m'))).
Proof.
  split.
  - intros msg Hconf Hfin.
    destruct (repoModel_Update m msg) as [[[m1 | um] c] | r] eqn:Hupd.
    + left. exists m1, c. split; [reflexivity|].
      apply browse_step in Hupd as ((_ & _ & He) & Hsame & _).
      destruct (Hsame Hconf Hfin) as (Hc & Hm & Hce & Hno).
      repeat split; try assumption.
      apply repoModel_View_fields; assumption.
    + right. pose proof Hupd as Hupd'. update_cases m msg Hupd.
      repeat split; try assumption. eexists. split; [reflexivity | assumption].
    + update_cases m msg Hupd. congruence.
  - assert (Hall : forall (msgs : list Msg) (m0 m' : repoModel) (cmds : list Cmd),
               forallb (fun msg => negb (is_confirm msg) && negb (is_finished msg)) msgs
               = true ->
               browse m0 msgs = Some (m', cmds) ->
               rm_err m' = rm_err m0 /\ rm_cloning m' = rm_cloning m0
               /\ rm_cloneMsg m' = rm_cloneMsg m0
               /\ rm_cloneError m' = rm_cloneError m0
               /\ clones_started cmds = 0%nat).
    { induction msgs as [|msg msgs IH]; intros m0 m' cmds Hok Hrun.
      - injection Hrun as <- <-. repeat split.
      - apply browse_cons in Hrun as (m1 & c & cs & Hupd & Hrest & ->).
        simpl in Hok. apply andb_prop in Hok as [Hmsg Hok].
        apply andb_prop in Hmsg as [Hconf Hfin].
        apply negb_true_iff in Hconf, Hfin.
        apply browse_step in Hupd as ((_ & _ & He) & Hsame & _).
        destruct (Hsame Hconf Hfin) as (Hc & Hm & Hce & Hno).
        destruct (IH _ _ _ Hok Hrest) as (IHe & IHc & IHm & IHce & IHn).
        repeat split; try congruence.
        rewrite clones_started_cons, IHn. unfold clones_started. simpl.
        rewrite Hno. reflexivity. }
    intros msgs m' cmds Hok Hrun.
    destruct (Hall _ _ _ _ Hok Hrun) as (He & Hc & Hm & Hce & Hn).
    repeat split; try assumption.
    apply repoModel_View_fields; assumption.
Qed.

(** X9. At most one clone is in flight.  Over any sequence of messages
    the browse controller handles, the clones it starts never outnumber the
    completion messages it receives by more than the one clone the first
    state still allows: by one when it starts idle, by none when it starts
    with a clone running. *)
Theorem at_most_one_clone_in_flight (msgs : list Msg) :
  forall (m m' : repoModel) (cmds : list Cmd),
    browse m msgs = Some (m', cmds) ->
    (clones_started cmds + clone_slot m' <= clones_finished msgs + clone_slot m)%nat
    /\ (clones_started cmds <= clones_finished msgs + 1)%nat
    /\ (rm_cloning m = true -> clones_started cmds <= clones_finished msgs)%nat.
Proof.
  assert (Hmain : forall (m m' : repoModel) (cmds : list Cmd),
             browse m msgs = Some (m', cmds) ->
             (clones_started cmds + clone_slot m'
              <= clones_finished msgs + clone_slot m)%nat).
  { induction msgs as [|msg msgs IH]; intros m m' cmds Hrun.
    - injection Hrun as <- <-. apply Nat.le_refl.
    - apply browse_cons in Hrun as (m1 & c & cs & Hupd & Hrest & ->).
      apply browse_step in Hupd as (_ & _ & _ & Hstep).
      specialize (IH _ _ _ Hrest).
      rewrite clones_started_cons, clones_finished_cons. lia. }
  intros m m' cmds Hrun. specialize (Hmain m m' cmds Hrun).
  repeat split; [exact Hmain | |]; unfold clone_slot in Hmain.
  - destruct (rm_cloning m), (rm_cloning m'); lia.
  - intros Hc. rewrite Hc in Hmain. destruct (rm_cloning m'); lia.
Qed.

(** X10. While a clone is running the browse controller is inert towards
    every message, not only the confirm key: [Update] never panics, never
    hands over to the identity controller (the "c" key is held back too),
    never starts a clone, and [cloning] stays set with its message until a
    clone-completion message arrives, which alone clears it. *)
Theorem cloning_ends_only_on_completion (m : repoModel) (msg : Msg) :
  rm_cloning m = true ->
  exists (m' : repoModel) (c : Cmd),
    repoModel_Update m msg = Ok (RepoModel m', c)
    /\ dispatches_clone c = false
    /\ rm_cloning m' = negb (is_finished msg)
    /\ (is_finished msg = false ->
        rm_cloneMsg m' = rm_cloneMsg m /\ rm_cloneError m' = rm_cloneError m).
Proof.
  intros Hc.
  assert (Hshape : exists m' c, repoModel_Update m msg = Ok (RepoModel m', c)).
  { pose proof (repoModel_Update_cases m msg) as Hcase.
    inversion Hcase; try congruence; eauto. }
  destruct Hshape as (m' & c & Hupd). exists m', c. split; [exact Hupd|].
  apply browse_step in Hupd as (_ & _ & Hcl & _). exact (Hcl Hc).
Qed.

Lemma clone_line_step (m m' : repoModel) (msg : Msg) (c : Cmd) :
  repoModel_Update m msg = Ok (RepoModel m', c) ->
  clone_line_ok m -> clone_line_ok m'.
Proof.
  intros Hupd Hok. update_cases m msg Hupd; try exact Hok.
  - unfold clone_line_ok. simpl. eexists. reflexivity.
  - unfold clone_line_ok. destruct err as [e|]; simpl.
    + right. left. split; [reflexivity | eexists; reflexivity].
    + right. right. split; [reflexivity | eexists; reflexivity].
Qed.

(** X17. The style of the clone line always fits its text.  In every
    state the browse controller reaches from the one [initialModel] built,
    the screen shows no clone line, or the progress line "Cloning ...", or
    a line marked as an error that reads "Error cloning: ...", or a line
    not marked as an error that reads "Successfully cloned to .../": a
    success text is never shown in the error style, nor an error text in
    the success style. *)
Theorem clone_line_matches_its_style (msgs : list Msg) (username : string)
    (fetched : list Repository * option error) (m : repoModel) (cmds : list Cmd) :
  browse (browse_state username fetched) msgs = Some (m, cmds) ->
  match repoModel_View m with
  | FetchErrorScreen _ => rm_err m <> None
  | ListScreen _ => rm_cloning m = false /\ rm_cloneMsg m = ""
  | CloningScreen _ _ text => exists n, text = "Cloning " ++ n ++ "..."
  | CloneResultScreen _ true text => exists e, text = "Error cloning: " ++ e
  | CloneResultScreen _ false text =>
      exists d, text = "Successfully cloned to " ++ d ++ "/"
  end.
Proof.
  intros Hrun.
  assert (Hok : clone_line_ok m).
  { assert (Hall : forall (l : list Msg) (m0 m1 : repoModel) (cs : list Cmd),
               browse m0 l = Some (m1, cs) -> clone_line_ok m0 -> clone_line_ok m1).
    { induction l as [|msg l IH]; intros m0 m1 cs Hb H0.
      - injection Hb as <- _. exact H0.
      - apply browse_cons in Hb as (m2 & c & cs' & Hupd & Hrest & _).
        apply (IH _ _ _ Hrest). apply (clone_line_step _ _ _ _ Hupd H0). }
    apply (Hall _ _ _ _ Hrun).
    unfold clone_line_ok. destruct fetched as [[|r repos] [e|]]; simpl; auto. }
  unfold repoModel_View, clone_line_ok in *.
  destruct (rm_err m) as [e|]; [discriminate|].
  destruct (rm_cloning m).
  - exact Hok.
  - destruct (String.eqb (rm_cloneMsg m) "") eqn:Hempty; simpl.
    + apply String.eqb_eq in Hempty. auto.
    + apply String.eqb_neq in Hempty.
      destruct Hok as [Hnil | [[-> Herr] | [-> Hsucc]]];
        [contradiction | exact Herr | exact Hsucc].
Qed.

End BrowseProperties.

(** * The rest of [cloneRepo] *)

Lemma substring_skip (a b : string) (n : nat) :
  substring (String.length a) n (a ++ b) = substring 0 n b.
Proof. induction a as [|c a IH]; simpl; [reflexivity | exact IH]. Qed.

Lemma go_slice_from (a b : string) (hi : Z) :
  go_slice (a ++ b) (len a) hi
  = if (len a <=? hi) && (hi <=? len a + len b)
    then Ok (substring 0 (Z.to_nat (hi - len a)) b)
    else Panic "slice bounds out of range".
Proof.
  unfold go_slice, len. rewrite length_append, Nat2Z.id, substring_skip.
  replace (0 <=? Z.of_nat (String.length a)) with true
    by (symmetry; apply Z.leb_le; lia).
  rewrite Nat2Z.inj_add. reflexivity.
Qed.

(** The slice of [cloneRepo] in terms of the last path segment. *)
Lemma cloneDir_slice (u : string) :
  cloneDir u
  = if (4 <=? String.length (last_path_segment u))%nat
    then Ok (substring 0 (String.length (last_path_segment u) - 4)
               (last_path_segment u))
    else Panic "slice bounds out of range".
Proof.
  unfold cloneDir.
  destruct (split_at_last_slash u) as [Hfree | (d & seg & -> & Hseg)].
  - rewrite (last_path_segment_free _ Hfree). unfold strings_LastIndex.
    rewrite (LastIndex_no_slash _ _ Hfree).
    pose proof (go_slice_from "" u (len u - 4)) as G.
    change ("" ++ u) with u in G. change (-1 + 1) with (len ""). rewrite G.
    unfold len. simpl String.length.
    destruct (4 <=? String.length u)%nat eqn:Hlen.
    + apply Nat.leb_le in Hlen.
      replace ((Z.of_nat 0 <=? Z.of_nat (String.length u) - 4)
               && (Z.of_nat (String.length u) - 4
                   <=? Z.of_nat 0 + Z.of_nat (String.length u)))
        with true by (symmetry; rewrite andb_true_iff, !Z.leb_le; lia).
      f_equal. f_equal. lia.
    + apply Nat.leb_gt in Hlen.
      replace (Z.of_nat 0 <=? Z.of_nat (String.length u) - 4) with false
        by (symmetry; apply Z.leb_gt; lia).
      reflexivity.
  - rewrite (last_path_segment_after_slash _ _ Hseg). unfold strings_LastIndex.
    rewrite (LastIndex_last_slash _ _ 0 (Z.le_refl 0) Hseg).
    assert (E1 : 0 + len d + 1 = len (d ++ "/"))
      by (unfold len; rewrite length_append; simpl; lia).
    rewrite E1, <- append_assoc, go_slice_from.
    unfold len. rewrite !length_append. simpl String.length.
    destruct (4 <=? String.length seg)%nat eqn:Hlen.
    + apply Nat.leb_le in Hlen.
      match goal with
      | |- (if ?c then _ else _) = _ =>
          replace c with true by (symmetry; rewrite andb_true_iff, !Z.leb_le; lia)
      end.
      f_equal. f_equal. lia.
    + apply Nat.leb_gt in Hlen.
      match goal with
      | |- (if ?c1 && ?c2 then _ else _) = _ =>
          replace c1 with false by (symmetry; apply Z.leb_gt; lia)
      end.
      reflexivity.
Qed.

(** X11. For every URL, [cloneRepo]'s slice is the text after the last
    slash (the whole URL when it has none) without its last four bytes,
    whatever those bytes are; it panics exactly when fewer than four bytes
    follow the last slash. *)
Theorem cloneDir_drops_four_bytes_of_last_segment (u : string) :
  cloneDir u
  = if (4 <=? String.length (last_path_segment u))%nat
    then Ok (substring 0 (String.length (last_path_segment u) - 4)
               (last_path_segment u))
    else Panic "slice bounds out of range".
Proof. exact (cloneDir_slice u). Qed.

(** * Clone completion *)

Lemma HasSuffix_append (a suffix : string) : HasSuffix (a ++ suffix) suffix = true.
Proof.
  unfold HasSuffix. rewrite length_append.
  replace (String.length a + String.length suffix - String.length suffix)%nat
    with (String.length a) by lia.
  rewrite substring_back, String.eqb_refl.
  replace (String.length suffix <=? String.length a + String.length suffix)%nat
    with true by (symmetry; apply Nat.leb_le; lia).
  reflexivity.
Qed.

(** A URL ends in [.git] exactly when its last path segment does. *)
Lemma HasSuffix_last_path_segment (u : string) :
  HasSuffix (last_path_segment u) ".git" = HasSuffix u ".git".
Proof.
  destruct (HasSuffix u ".git") eqn:Hu.
  - apply HasSuffix_split in Hu as [body ->].
    destruct (split_at_last_slash body) as [Hfree | (d & seg & -> & Hseg)].
    + rewrite last_path_segment_free
        by (rewrite no_slash_append, Hfree; reflexivity).
      apply HasSuffix_append.
    + rewrite !append_assoc.
      rewrite last_path_segment_after_slash
        by (rewrite no_slash_append, Hseg; reflexivity).
      apply HasSuffix_append.
  - destruct (split_at_last_slash u) as [Hfree | (d & seg & -> & Hseg)].
    + rewrite (last_path_segment_free _ Hfree). exact Hu.
    + rewrite (last_path_segment_after_slash _ _ Hseg).
      destruct (HasSuffix seg ".git") eqn:Hs; [|reflexivity].
      apply HasSuffix_split in Hs as [body ->].
      rewrite <- !append_assoc, HasSuffix_append in Hu. discriminate Hu.
Qed.

Lemma length_substring_front (n : nat) :
  forall s : string, (n <= String.length s)%nat -> String.length (substring 0 n s) = n.
Proof.
  induction n as [|n IH]; intros s Hn; [destruct s; reflexivity|].
  destruct s as [|c s]; simpl in Hn; [lia|].
  simpl. rewrite IH by lia. reflexivity.
Qed.

(** The directory name of the specification against the slice of the
    code: the same on a URL that ends in [.git]; on any other URL the
    directory name is the whole last segment, which the slice never is. *)
Lemma cloneDir_against_directoryName (u : string) :
  (HasSuffix u ".git" = true -> cloneDir u = Ok (directoryName u))
  /\ (HasSuffix u ".git" = false ->
      directoryName u = last_path_segment u
      /\ cloneDir u <> Ok (directoryName u)).
Proof.
  unfold directoryName, TrimSuffix.
  rewrite HasSuffix_last_path_segment, cloneDir_slice. split; intros Hu; rewrite Hu.
  - rewrite <- HasSuffix_last_path_segment in Hu. unfold HasSuffix in Hu.
    apply andb_prop in Hu as [Hlen _]. simpl String.length in *.
    rewrite Hlen. reflexivity.
  - split; [reflexivity|].
    destruct (4 <=? String.length (last_path_segment u))%nat eqn:Hlen;
      [|discriminate].
    apply Nat.leb_le in Hlen. intros Heq. injection Heq as Heq.
    apply (f_equal String.length) in Heq.
    rewrite length_substring_front in Heq by lia. lia.
Qed.

Section CloneCompletion.
Context {B : Bubbles}.

(** C6, what the code does.  Handling a clone-completion message clears
    [cloning] and records the result, touching nothing else: a failure
    with the text of the error when the message carries one, a success with
    the directory name the message carries otherwise; the view then shows
    that line in the matching style under the list.  The message
    [cloneRepo] sends carries an error exactly when the [git clone] process
    reported one, and its text ends with the combined output of the
    process.  After a clone that succeeded the message carries the
    directory name of the specification when the URL ends in [.git]; on
    every other URL it does not: the slice drops four bytes of the last
    segment whatever they are, or panics when the segment is shorter.
    After the completion the controller is not blocked: a key that is none
    of its own three reaches the list widget, whose new state is kept; the
    confirm key starts a clone of the selected item, "c" opens the identity
    controller and ctrl+c quits. *)
Theorem clone_completion_sets_result (m : repoModel) :
  (forall (err : option error) (dir : string),
      repoModel_Update m (cloneFinishedMsg err dir)
      = Ok (RepoModel
              {| rm_username := rm_username m; rm_repos := rm_repos m;
                 rm_list := rm_list m; rm_err := rm_err m;
                 rm_spinner := rm_spinner m; rm_cloning := false;
                 rm_cloneMsg :=
                   match err with
                   | Some e => "Error cloning: " ++ e
                   | None => "Successfully cloned to " ++ dir ++ "/"
                   end;
                 rm_cloneError := match err with Some _ => true | None => false end |},
            Nil)
      /\ (rm_err m = None ->
          forall m' c,
            repoModel_Update m (cloneFinishedMsg err dir) = Ok (RepoModel m', c) ->
            repoModel_View m'
            = match err with
              | Some e =>
                  CloneResultScreen (list_View (rm_list m)) true ("Error cloning: " ++ e)
              | None =>
                  CloneResultScreen (list_View (rm_list m)) false
                    ("Successfully cloned to " ++ dir ++ "/")
              end))
  /\ (forall (w : World) (fuel : nat) (u output : string) (status : error),
         exec w "git" ["clone"; u] = (output, Some status) ->
         run w (S (S fuel)) (cloneRepo u)
         = Some (Ok (cloneFinishedMsg (Some (status ++ ": " ++ output)) ""),
                 [CallCombinedOutput "git" ["clone"; u]]))
  /\ (forall (w : World) (fuel : nat) (u output : string),
         exec w "git" ["clone"; u] = (output, None) ->
         HasSuffix u ".git" = true ->
         run w (S (S fuel)) (cloneRepo u)
         = Some (Ok (cloneFinishedMsg None (directoryName u)),
                 [CallCombinedOutput "git" ["clone"; u]]))
  /\ (forall (w : World) (fuel : nat) (u output : string),
         exec w "git" ["clone"; u] = (output, None) ->
         HasSuffix u ".git" = false ->
         directoryName u = last_path_segment u
         /\ run w (S (S fuel)) (cloneRepo u)
            = Some (if (4 <=? String.length (directoryName u))%nat
                    then Ok (cloneFinishedMsg None
                               (substring 0 (String.length (directoryName u) - 4)
                                  (directoryName u)))
                    else Panic "slice bounds out of range",
                    [CallCombinedOutput "git" ["clone"; u]])
         /\ run w (S (S fuel)) (cloneRepo u)
            <> Some (Ok (cloneFinishedMsg None (directoryName u)),
                     [CallCombinedOutput "git" ["clone"; u]]))
  /\ (forall (err : option error) (dir : string) (k : Key),
         (is_browse_command k = false ->
          repoModel_Update (clone_finished m err dir) (KeyMsg k)
          = Ok (RepoModel
                  {| rm_username := rm_username m; rm_repos := rm_repos m;
                     rm_list := fst (list_Update (rm_list m) (KeyMsg k));
                     rm_err := rm_err m; rm_spinner := rm_spinner m;
                     rm_cloning := false;
                     rm_cloneMsg := rm_cloneMsg (clone_finished m err dir);
                     rm_cloneError := rm_cloneError (clone_finished m err dir) |},
                widget_cmd (snd (list_Update (rm_list m) (KeyMsg k)))))
         /\ (Key_String k = "enter" ->
             forall it : item,
               list_SelectedItem (rm_list m) = Some it ->
               repoModel_Update (clone_finished m err dir) (KeyMsg k)
               = Ok (RepoModel
                       {| rm_username := rm_username m; rm_repos := rm_repos m;
                          rm_list := rm_list m; rm_err := rm_err m;
                          rm_spinner := rm_spinner m; rm_cloning := true;
                          rm_cloneMsg := "Cloning " ++ name it ++ "...";
                          rm_cloneError :=
                            match err with Some _ => true | None => false end |},
                     Batch [SpinnerTick (rm_spinner m); CloneRepo (url it)]))
         /\ (Key_String k = "c" ->
             repoModel_Update (clone_finished m err dir) (KeyMsg k)
             = Ok (UsernameModel
                     (prepUsernameModel (rm_username m) (clone_finished m err dir)),
                   Nil))
         /\ (Key_String k = "ctrl+c" ->
             repoModel_Update (clone_finished m err dir) (KeyMsg k)
             = Ok (RepoModel (clone_finished m err dir), Quit))).
Proof.
  split.
  { intros err dir. split; [destruct err; reflexivity|].
    intros Herr m' c Hupd.
    assert (Hm' : m' = clone_finished m err dir)
      by (destruct err; simpl in Hupd; injection Hupd as <- _; reflexivity).
    subst m'. unfold repoModel_View. destruct err; simpl; rewrite Herr; reflexivity. }
  split.
  { intros w fuel u output status Hexec.
    rewrite (cloneRepo_run w fuel u output (Some status) Hexec). reflexivity. }
  split.
  { intros w fuel u output Hexec Hu.
    rewrite (cloneRepo_run w fuel u output None Hexec).
    unfold cloneFinished.
    rewrite (proj1 (cloneDir_against_directoryName u) Hu). reflexivity. }
  split.
  { intros w fuel u output Hexec Hu.
    destruct (proj2 (cloneDir_against_directoryName u) Hu) as [Hname Hdiff].
    rewrite (cloneRepo_run w fuel u output None Hexec).
    unfold cloneFinished. split; [exact Hname|]. split.
    - rewrite Hname, cloneDir_slice.
      destruct (4 <=? String.length (last_path_segment u))%nat; reflexivity.
    - intros Heq. apply Hdiff.
      destruct (cloneDir u) as [d|r]; [|discriminate Heq].
      injection Heq as ->. reflexivity. }
  intros err dir k. split.
  { intros Hk. unfold is_browse_command in Hk.
    apply orb_false_elim in Hk as [Hk Hc]. apply orb_false_elim in Hk as [Hq He].
    unfold repoModel_Update. rewrite Hq, He, Hc. simpl andb. cbv iota.
    unfold forward_to_list.
    replace (rm_list (clone_finished m err dir)) with (rm_list m)
      by (destruct err; reflexivity).
    destruct (list_Update (rm_list m) (KeyMsg k)) as [l cmd].
    destruct err; reflexivity. }
  split.
  { intros Hk it Hsel. unfold repoModel_Update. rewrite Hk.
    replace (rm_list (clone_finished m err dir)) with (rm_list m)
      by (destruct err; reflexivity).
    destruct err; simpl; rewrite Hsel; reflexivity. }
  split.
  - intros Hk. unfold repoModel_Update. rewrite Hk. destruct err; reflexivity.
  - intros Hk. unfold repoModel_Update. rewrite Hk. destruct err; reflexivity.
Qed.

End CloneCompletion.

(** * The rest of the identity controller *)

Lemma run_bind_inv {A C : Type} (w : World) (fuel : nat) :
  forall (t : itree osE A) (k : A -> itree osE C) (b : C) (c : list Call),
    run w fuel (ITree.bind t k) = Some (b, c) ->
    exists (a : A) (c1 c2 : list Call),
      run w fuel t = Some (a, c1) /\ run w fuel (k a) = Some (b, c2)
      /\ c = (c1 ++ c2)%list.
Proof.
  induction fuel as [|fuel IH]; intros t k b c Hrun; [discriminate Hrun|].
  destruct (observe t) as [a | t0 | X e k0] eqn:Hobs.
  - rewrite (run_observe w _ (ITree.bind t k) (k a)) in Hrun
      by (unfold ITree.bind; simpl; rewrite Hobs; reflexivity).
    exists a, [], c. simpl run at 1. rewrite Hobs. auto.
  - rewrite (run_observe w _ (ITree.bind t k) (Tau (ITree.bind t0 k))) in Hrun
      by (unfold ITree.bind; simpl; rewrite Hobs; reflexivity).
    rewrite run_Tau in Hrun. apply IH in Hrun as (a & c1 & c2 & Ht & Hk & ->).
    exists a, c1, c2. simpl run at 1. rewrite Hobs.
    repeat split; [exact Ht|].
    apply run_more_fuel with (fuel := fuel); [exact Hk | lia].
  - rewrite (run_observe w _ (ITree.bind t k)
               (Vis e (fun x => ITree.bind (k0 x) k))) in Hrun
      by (unfold ITree.bind; simpl; rewrite Hobs; reflexivity).
    simpl in Hrun.
    destruct (run w fuel (ITree.bind (k0 (answer w e)) k)) as [[b' c']|] eqn:Hk0;
      [|discriminate Hrun].
    injection Hrun as <- <-.
    apply IH in Hk0 as (a & c1 & c2 & Ht & Hk & ->).
    exists a, (call_of e :: c1), c2. simpl run at 1. rewrite Hobs, Ht.
    repeat split.
    apply run_more_fuel with (fuel := fuel); [exact Hk | lia].
Qed.

Lemma run_Ret_inv {A : Type} (w : World) (fuel : nat) (a b : A) (c : list Call) :
  run w fuel (Ret a) = Some (b, c) -> b = a /\ c = [].
Proof.
  destruct fuel; [discriminate|]. simpl. intros H. injection H as <- <-. auto.
Qed.

Section IdentityController.
Context {B : Bubbles}.

(** Whatever the collaborators answer, the model [initialModel] returns is
    idle, shows no clone message and carries the username it was given. *)
Lemma initialModel_fresh (w : World) (fuel : nat) (username : string)
    (rm : repoModel) (calls : list Call) :
  run w fuel (initialModel username) = Some (rm, calls) ->
  exists fetched,
    rm = browse_state username fetched
    /\ rm_username rm = username /\ rm_cloning rm = false /\ rm_cloneMsg rm = "".
Proof.
  unfold initialModel. intros Hrun.
  apply run_bind_inv in Hrun as ([repos err] & c1 & c2 & _ & Hk & _).
  exists (repos, err).
  destruct err as [e|].
  - apply run_Ret_inv in Hk as [-> _]. repeat split.
  - destruct repos as [|r repos].
    + apply run_Ret_inv in Hk as [-> _]. repeat split.
    + replace (Z.of_nat (List.length (r :: repos)) <=? 0) with false in Hk
        by (symmetry; apply Z.leb_gt; simpl List.length; lia).
      apply run_Ret_inv in Hk as [-> _]. repeat split.
Qed.

(** X12. In the identity controller only one kind of message reaches
    outside the process: a confirm key on a text that does not trim to the
    empty string, which reads [GITHUB_TOKEN] and fetches, and whose next
    model is an idle browse state for the trimmed text.  Every other message
    (typing, Esc, Ctrl+C, a blank confirm, resize, ticks) is handled without
    any call; and no message makes the identity controller start a clone. *)
Theorem identity_calls_out_only_on_confirm (m : usernameModel) (msg : Msg)
    (w : World) (fuel : nat) (next : Model) (c : Cmd) (calls : list Call) :
  run w fuel (usernameModel_Update m msg) = Some ((next, c), calls) ->
  dispatches_clone c = false
  /\ (fetching_confirm m msg = false -> calls = [])
  /\ (fetching_confirm m msg = true ->
      c = Nil
      /\ (exists rest, calls = CallGetenv "GITHUB_TOKEN" :: rest)
      /\ exists rm : repoModel,
          next = RepoModel rm /\ rm_cloning rm = false
          /\ rm_username rm
             = strings_TrimSpace (textinput_Value (um_textInput m))).
Proof.
  intros Hrun.
  assert (Hfwd :
    run w fuel
      (let '(ti, cmd) := textinput_Update (um_textInput m) msg in
       Ret (UsernameModel
              {| um_rootModel := um_rootModel m; um_username := um_username m;
                 um_textInput := ti; um_err := um_err m |},
            widget_cmd cmd)) = Some ((next, c), calls) ->
    dispatches_clone c = false /\ calls = []).
  { destruct (textinput_Update (um_textInput m) msg) as [ti cmd]. intros H.
    apply run_Ret_inv in H as [H ->]. injection H as _ ->.
    split; [apply widget_cmd_no_clone | reflexivity]. }
  unfold usernameModel_Update in Hrun. unfold fetching_confirm.
  destruct msg as [k | | | |];
    try (destruct (Hfwd Hrun) as [-> ->]; repeat split; discriminate).
  destruct (Type_ k);
    try (destruct (Hfwd Hrun) as [-> ->]; repeat split; discriminate).
  - apply run_Ret_inv in Hrun as [H ->]. injection H as _ ->.
    repeat split; discriminate.
  - destruct (String.eqb (strings_TrimSpace (textinput_Value (um_textInput m))) "").
    + apply run_Ret_inv in Hrun as [H ->]. injection H as _ ->.
      repeat split; discriminate.
    + apply run_bind_inv in Hrun as (rm & c1 & c2 & Hinit & Hret & ->).
      apply run_Ret_inv in Hret as [H ->]. injection H as -> ->.
      split; [reflexivity|]. split; [discriminate|]. intros _.
      split; [reflexivity|]. split.
      * destruct fuel as [|fuel]; [discriminate Hinit|].
        unfold initialModel, fetchRepos in Hinit. simpl in Hinit.
        match type of Hinit with
        | match ?r with _ => _ end = _ => destruct r as [[a cs]|]; [|discriminate Hinit]
        end.
        injection Hinit as _ <-. rewrite app_nil_r. eexists. reflexivity.
      * apply initialModel_fresh in Hinit as (fetched & _ & Hu & Hc & _).
        exists rm. auto.
  - destruct (String.eqb (um_username m) "");
      apply run_Ret_inv in Hrun as [H ->]; injection H as _ ->;
      repeat split; discriminate.
Qed.

End IdentityController.

(** * The rest of [fetchRepos] *)

Section FetchLoop.
Variables (w : World) (username : string).

Lemma fetch_round (fuel : nat) (page : Z) (acc : list Repository) :
  run w (S fuel)
    (ITree.iter (fetchRepos_page (client_for (env w "GITHUB_TOKEN")) username)
       (page, acc))
  = match
      (match failure_of (page_answer w username page) with
       | Some e => run w fuel (Ret ([], Some ("failed to list repos: " ++ e)))
       | None =>
           if next_of (page_answer w username page) =? 0
           then run w fuel
                  (Ret ((acc ++ listing_of (page_answer w username page))%list,
                        @None error))
           else run w fuel
                  (Tau (ITree.iter
                          (fetchRepos_page (client_for (env w "GITHUB_TOKEN")) username)
                          (next_of (page_answer w username page),
                           (acc ++ listing_of (page_answer w username page))%list)))
       end)
    with
    | Some (r, calls) => Some (r, page_request w username page :: calls)
    | None => None
    end.
Proof.
  rewrite run_iter. unfold fetchRepos_page at 1. rewrite run_trigger_bind_bind.
  unfold failure_of, next_of, listing_of, page_answer, page_request, page_options.
  simpl answer.
  destruct (api w (client_for (env w "GITHUB_TOKEN")) username
              {| ListType := "all"; Page := page; PerPage := 100 |})
    as [[repos resp] [e|]]; simpl fst; simpl snd.
  - rewrite run_Ret_bind. reflexivity.
  - destruct (NextPage resp =? 0); rewrite run_Ret_bind; reflexivity.
Qed.

Lemma fetch_loop_never_ends :
  (forall p, failure_of (page_answer w username p) = None
             /\ next_of (page_answer w username p) <> 0) ->
  forall (fuel : nat) (page : Z) (acc : list Repository),
    run w fuel
      (ITree.iter (fetchRepos_page (client_for (env w "GITHUB_TOKEN")) username)
         (page, acc))
    = None.
Proof.
  intros Hnever fuel. induction fuel as [fuel IH] using lt_wf_ind.
  intros page acc. destruct fuel as [|fuel]; [reflexivity|].
  rewrite fetch_round. destruct (Hnever page) as [Hok Hnext].
  rewrite Hok. apply Z.eqb_neq in Hnext. rewrite Hnext.
  destruct fuel as [|fuel]; [reflexivity|].
  rewrite run_Tau, IH by lia. reflexivity.
Qed.

Lemma fetch_loop_trace :
  forall (fuel : nat) (page : Z) (acc : list Repository)
         (r : list Repository * option error) (calls : list Call),
    run w fuel
      (ITree.iter (fetchRepos_page (client_for (env w "GITHUB_TOKEN")) username)
         (page, acc))
    = Some (r, calls) ->
    exists later : list Z,
      calls = map (page_request w username) (page :: later)
      /\ linked w username page later
      /\ match failure_of (page_answer w username (final_page page later)) with
         | Some e => r = ([], Some ("failed to list repos: " ++ e))
         | None =>
             next_of (page_answer w username (final_page page later)) = 0
             /\ r = ((acc ++ List.concat
                               (map (fun p => listing_of (page_answer w username p))
                                  (page :: later)))%list,
                     None)
         end.
Proof.
  intros fuel. induction fuel as [fuel IH] using lt_wf_ind.
  intros page acc r calls Hrun. destruct fuel as [|fuel]; [discriminate Hrun|].
  rewrite fetch_round in Hrun.
  destruct (failure_of (page_answer w username page)) as [e|] eqn:Hfail.
  - destruct (run w fuel (Ret ([], Some ("failed to list repos: " ++ e))))
      as [[r0 cs]|] eqn:Hret; [|discriminate Hrun].
    apply run_Ret_inv in Hret as [-> ->]. injection Hrun as <- <-.
    exists []. simpl. rewrite Hfail. repeat split.
  - destruct (next_of (page_answer w username page) =? 0) eqn:Hnext.
    + match type of Hrun with
      | match ?x with _ => _ end = _ => destruct x as [[r0 cs]|] eqn:Hret
      end; [|discriminate Hrun].
      apply run_Ret_inv in Hret as [-> ->]. injection Hrun as <- <-.
      exists []. simpl. rewrite Hfail. apply Z.eqb_eq in Hnext.
      rewrite app_nil_r. repeat split. exact Hnext.
    + destruct fuel as [|fuel]; [discriminate Hrun|].
      rewrite run_Tau in Hrun.
      match type of Hrun with
      | match ?x with _ => _ end = _ => destruct x as [[r0 cs]|] eqn:Hrest
      end; [|discriminate Hrun].
      injection Hrun as <- <-.
      apply IH in Hrest as (later & -> & Hlinked & Hfinal); [|lia].
      exists (next_of (page_answer w username page) :: later).
      apply Z.eqb_neq in Hnext.
      split; [reflexivity|]. split; [simpl; auto|].
      cbn [final_page].
      destruct (failure_of
                  (page_answer w username
                     (final_page (next_of (page_answer w username page)) later)));
        [exact Hfinal|].
      destruct Hfinal as [Hlast ->]. split; [exact Hlast|].
      cbn [map List.concat]. rewrite <- app_assoc. reflexivity.
Qed.

End FetchLoop.

(** X13. [fetchRepos] has no bound on the pages it follows: against an API
    that never fails and never reports a last page (a next page in every
    answer), it does not return, whatever the number of steps allowed. *)
Theorem fetchRepos_never_returns_without_last_page (w : World)
    (username : string) (fuel : nat) :
  (forall p, failure_of (page_answer w username p) = None
             /\ next_of (page_answer w username p) <> 0) ->
  run w fuel (fetchRepos username) = None.
Proof.
  intros Hnever. destruct fuel as [|fuel]; [reflexivity|].
  unfold fetchRepos. rewrite run_trigger_bind. simpl answer.
  pose proof (fetch_loop_never_ends w username Hnever fuel 0 []) as Hloop.
  unfold client_for in Hloop. rewrite Hloop. reflexivity.
Qed.

(** X14. Whatever the API answers, a fetch that returns has read
    [GITHUB_TOKEN] once and then asked for pages only: always for the same
    username, with type "all" and 100 entries per page, through the one
    client the token selects, starting without a page number and then asking
    exactly for the page each answer named as next.  If the last answer is
    a failure, the result is that failure wrapped as "failed to list
    repos: ..." and no repository; otherwise the last answer named no next
    page and the result is every listing received, in the order asked. *)
Theorem fetchRepos_asks_and_returns (w : World) (username : string) (fuel : nat)
    (r : list Repository * option error) (calls : list Call) :
  run w fuel (fetchRepos username) = Some (r, calls) ->
  exists later : list Z,
    calls = CallGetenv "GITHUB_TOKEN" :: map (page_request w username) (0 :: later)
    /\ linked w username 0 later
    /\ match failure_of (page_answer w username (final_page 0 later)) with
       | Some e => r = ([], Some ("failed to list repos: " ++ e))
       | None =>
           next_of (page_answer w username (final_page 0 later)) = 0
           /\ r = (List.concat
                     (map (fun p => listing_of (page_answer w username p))
                        (0 :: later)),
                   None)
       end.
Proof.
  intros Hrun. destruct fuel as [|fuel]; [discriminate Hrun|].
  unfold fetchRepos in Hrun. rewrite run_trigger_bind in Hrun. simpl answer in Hrun.
  match type of Hrun with
  | match ?x with _ => _ end = _ => destruct x as [[r0 cs]|] eqn:Hloop
  end; [|discriminate Hrun].
  injection Hrun as <- <-.
  apply (fetch_loop_trace w username) in Hloop as (later & -> & Hlinked & Hfinal).
  exists later. repeat split; assumption.
Qed.

(** * The whole program *)

Section Program_level.
Context {B : Bubbles}.

(** X15. [initialModel] over an API that serves pages holding at least one
    repository: the browse state has no error, keeps every repository of
    every page in page order, and its list is built from one item per
    repository (name and clone URL, empty when the API sent none), titled
    with the username and sized 80 by 24. *)
Theorem initialModel_lists_every_page
    (getenv : string -> string)
    (execfn : string -> list string -> string * option error)
    (username : string) (listings : list (list Repository)) (extra : nat) :
  List.concat listings <> [] ->
  exists (m : repoModel) (calls : list Call),
    run (paged_world getenv execfn (map inl listings))
      (2 * List.length listings + 4 + extra) (initialModel username)
    = Some (m, calls)
    /\ rm_err m = None
    /\ rm_repos m = List.concat listings
    /\ rm_list m
       = list_SetSize
           (list_SetAdditionalHelpKeys
              (list_SetTitle (list_New (map item_of (List.concat listings)) 0 0)
                 (username ++ "'s GitHub Repositories"))
              [("enter", "clone repo"); ("c", "change user")]
              [("enter", "clone selected repository");
               ("c", "change GitHub username")])
           80 24
    /\ List.length (map item_of (List.concat listings))
       = list_sum (map (@List.length Repository) listings)
    /\ map item_Title (map item_of (List.concat listings))
       = map GetName (List.concat listings)
    /\ map item_Description (map item_of (List.concat listings))
       = map GetCloneURL (List.concat listings).
Proof.
  intros Hne.
  destruct (initialModel_paged getenv execfn username (map inl listings) extra)
    as [calls Hcalls].
  rewrite length_map in Hcalls.
  exists (browse_state username (fetch_outcome [] (map inl listings))), calls.
  split; [exact Hcalls|].
  unfold fetch_outcome. rewrite all_pages_listings. simpl app.
  destruct (List.concat listings) as [|r repos] eqn:Hall; [contradiction|].
  rewrite <- Hall. unfold browse_state. rewrite Hall.
  repeat split.
  - rewrite length_map, <- Hall. apply length_concat_pages.
  - rewrite map_map. reflexivity.
  - rewrite map_map. reflexivity.
Qed.

(** Where one message leaves the identity controller: in place with the
    same browse state to return to, back in that browse state, or in a
    fresh, idle browse state; never with a clone command. *)
Lemma usernameModel_Update_next (m : usernameModel) (msg : Msg)
    (w : World) (fuel : nat) (next : Model) (c : Cmd) (calls : list Call) :
  run w fuel (usernameModel_Update m msg) = Some ((next, c), calls) ->
  dispatches_clone c = false
  /\ ((exists um', next = UsernameModel um' /\ um_rootModel um' = um_rootModel m)
      \/ next = RepoModel (um_rootModel m)
      \/ (exists rm, next = RepoModel rm /\ rm_cloning rm = false)).
Proof.
  intros Hrun.
  assert (Hfwd :
    run w fuel
      (let '(ti, cmd) := textinput_Update (um_textInput m) msg in
       Ret (UsernameModel
              {| um_rootModel := um_rootModel m; um_username := um_username m;
                 um_textInput := ti; um_err := um_err m |},
            widget_cmd cmd)) = Some ((next, c), calls) ->
    dispatches_clone c = false
    /\ ((exists um', next = UsernameModel um' /\ um_rootModel um' = um_rootModel m)
        \/ next = RepoModel (um_rootModel m)
        \/ (exists rm, next = RepoModel rm /\ rm_cloning rm = false))).
  { destruct (textinput_Update (um_textInput m) msg) as [ti cmd]. intros H.
    apply run_Ret_inv in H as [H _]. injection H as -> ->.
    split; [apply widget_cmd_no_clone|]. left. eexists. split; reflexivity. }
  unfold usernameModel_Update in Hrun.
  destruct msg as [k | | | |]; try exact (Hfwd Hrun).
  destruct (Type_ k); try exact (Hfwd Hrun).
  - apply run_Ret_inv in Hrun as [H _]. injection H as -> ->.
    split; [reflexivity|]. left. eexists. split; reflexivity.
  - destruct (String.eqb (strings_TrimSpace (textinput_Value (um_textInput m))) "").
    + apply run_Ret_inv in Hrun as [H _]. injection H as -> ->.
      split; [reflexivity|]. left. eexists. split; reflexivity.
    + apply run_bind_inv in Hrun as (rm & c1 & c2 & Hinit & Hret & _).
      apply run_Ret_inv in Hret as [H _]. injection H as -> ->.
      apply initialModel_fresh in Hinit as (fetched & _ & _ & Hc & _).
      split; [reflexivity|]. right. right. exists rm. auto.
  - destruct (String.eqb (um_username m) "");
      apply run_Ret_inv in Hrun as [H _]; injection H as -> ->;
      (split; [reflexivity|]).
    + left. eexists. split; reflexivity.
    + right. left. reflexivity.
Qed.

Lemma program_step (m m' : Model) (msg : Msg) (c : Cmd) (w : World)
    (fuel : nat) (calls : list Call) :
  run w fuel (Model_Update m msg) = Some (Ok (m', c), calls) ->
  root_idle m ->
  root_idle m'
  /\ (clones_started [c] + model_slot m' <= clones_finished [msg] + model_slot m)%nat.
Proof.
  intros Hrun Hidle. destruct m as [rm | um]; cbn [Model_Update] in Hrun.
  - apply run_Ret_inv in Hrun as [Hupd _]. symmetry in Hupd.
    destruct m' as [rm' | um'].
    + split; [exact I|]. apply browse_step in Hupd as (_ & _ & _ & Hstep). exact Hstep.
    + update_cases rm msg Hupd.
      split; [assumption|].
      unfold clones_started, clones_finished, model_slot, clone_slot. simpl.
      match goal with H : rm_cloning rm = false |- _ => rewrite H end. lia.
  - apply run_bind_inv in Hrun as ([next c0] & c1 & c2 & Hupd & Hret & _).
    apply run_Ret_inv in Hret as [H _]. injection H as <- <-.
    apply usernameModel_Update_next in Hupd as [Hno Hnext].
    assert (Hcount : clones_started [c] = 0%nat)
      by (unfold clones_started; simpl; rewrite Hno; reflexivity).
    rewrite Hcount. simpl in Hidle.
    destruct Hnext as [(um' & -> & Hroot) | [-> | (rm & -> & Hc)]].
    + split; [simpl; rewrite Hroot; exact Hidle | simpl; lia].
    + split; [exact I|]. unfold model_slot, clone_slot. rewrite Hidle. lia.
    + split; [exact I|]. unfold model_slot, clone_slot. rewrite Hc. lia.
Qed.

Lemma session_keeps_one_clone (msgs : list Msg) :
  forall (m m' : Model) (cmds : list Cmd) (w : World) (fuel : nat)
         (calls : list Call),
    run w fuel (session m msgs) = Some (Ok (m', cmds), calls) ->
    root_idle m ->
    (clones_started cmds + model_slot m' <= clones_finished msgs + model_slot m)%nat.
Proof.
  induction msgs as [|msg msgs IH]; intros m m' cmds w fuel calls Hrun Hidle.
  - cbn [session] in Hrun. apply run_Ret_inv in Hrun as [H _].
    injection H as -> ->. apply Nat.le_refl.
  - cbn [session] in Hrun.
    apply run_bind_inv in Hrun as (r & c1 & c2 & Hstep & Hrest & _).
    destruct r as [[m1 c] | reason].
    + apply run_bind_inv in Hrest as (r' & c3 & c4 & Hsess & Hret & _).
      destruct r' as [[m2 cs] | reason];
        apply run_Ret_inv in Hret as [H _]; [|discriminate H].
      injection H as -> ->.
      destruct (program_step _ _ _ _ _ _ _ Hstep Hidle) as [Hidle1 Hle1].
      specialize (IH _ _ _ _ _ _ Hsess Hidle1).
      rewrite clones_started_cons, clones_finished_cons. lia.
    + apply run_Ret_inv in Hrest as [H _]. discriminate H.
Qed.

Lemma BbltRun_model_idle (w : World) (fuel : nat) (m : Model) (calls : list Call) :
  run w fuel BbltRun_model = Some (m, calls) ->
  root_idle m /\ (model_slot m <= 1)%nat.
Proof.
  unfold BbltRun_model. intros Hrun.
  apply run_bind_inv in Hrun as ([out err] & c1 & c2 & _ & Hk & _).
  destruct ((match err with Some _ => true | None => false end)
            && String.eqb (strings_TrimSpace out) "").
  - apply run_Ret_inv in Hk as [-> _]. split; [reflexivity | apply Nat.le_refl].
  - apply run_bind_inv in Hk as (rm & c3 & c4 & _ & Hret & _).
    apply run_Ret_inv in Hret as [-> _]. split; [exact I|].
    unfold model_slot, clone_slot. destruct (rm_cloning rm); lia.
Qed.

(** X16. The whole program keeps at most one clone in flight.  From the
    model [BbltRun] starts with, through any sequence of messages, across
    both controllers and every hand-over between them (change identity,
    cancel, confirm with its fresh fetch), as long as no panic ends the run:
    the clone commands returned never outnumber the completion messages
    received by more than one, and not at all whenever the model reached is
    not cloning. *)
Theorem program_keeps_one_clone_in_flight (w : World) (fuel : nat)
    (msgs : list Msg) (m' : Model) (cmds : list Cmd) (calls : list Call) :
  run w fuel (m0 <- BbltRun_model ;; session m0 msgs) = Some (Ok (m', cmds), calls) ->
  (clones_started cmds + model_slot m' <= clones_finished msgs + 1)%nat.
Proof.
  intros Hrun.
  apply run_bind_inv in Hrun as (m0 & c1 & c2 & Hstart & Hsess & _).
  apply BbltRun_model_idle in Hstart as [Hidle Hslot].
  pose proof (session_keeps_one_clone msgs _ _ _ _ _ _ Hsess Hidle) as Hle. lia.
Qed.

End Program_level.

(** ** The statements at concrete inputs *)

Lemma identity_confirm_empty_witness :
  usernameModel_Update Scenario.blank (KeyMsg Scenario.enter)
  = Ret (UsernameModel Scenario.blank, Nil)
  /\ run (paged_world Scenario.no_env (Scenario.git_says "" None) Scenario.alice_pages)
       1 (usernameModel_Update Scenario.blank (KeyMsg Scenario.enter))
     = Some ((UsernameModel Scenario.blank, Nil), []).
Proof.
  apply (identity_confirm_empty_is_ignored Scenario.blank Scenario.enter).
  - reflexivity.
  - apply TrimSpace_whitespace. reflexivity.
Defined.

Lemma identity_cancel_witness :
  usernameModel_Update Scenario.edited (KeyMsg Scenario.esc)
  = Ret (RepoModel Scenario.browsing, Nil)
  /\ um_username Scenario.edited = "alice"
  /\ um_rootModel Scenario.edited = Scenario.browsing
  /\ run (paged_world Scenario.no_env (Scenario.git_says "" None) Scenario.alice_pages)
       1 (usernameModel_Update Scenario.edited (KeyMsg Scenario.esc))
     = Some ((RepoModel Scenario.browsing, Nil), []).
Proof.
  assert (Hedit :
    editing (prepUsernameModel (rm_username Scenario.browsing) Scenario.browsing)
      [KeyMsg (Scenario.typed "x"); KeyMsg Scenario.backspace] Scenario.edited).
  { eapply editing_step; [reflexivity|].
    eapply editing_step; [reflexivity|].
    apply editing_done. }
  destruct (identity_cancel_returns_to_browse Scenario.edited Scenario.esc
              Scenario.browsing _ eq_refl Hedit) as (Hupd & Hu & Hr & Hrun).
  split; [exact Hupd|]. split; [exact Hu|]. split; [exact Hr|].
  apply Hrun. discriminate.
Defined.

Lemma confirm_while_cloning_witness :
  exists (m' : repoModel) (cmds : list Cmd),
    browse Scenario.cloning
      [KeyMsg Scenario.enter; KeyMsg Scenario.enter; KeyMsg Scenario.enter]
    = Some (m', cmds)
    /\ m' = set_list Scenario.cloning (rm_list m')
    /\ rm_cloning m' = true
    /\ rm_cloneMsg m' = "Cloning dotfiles..."
    /\ rm_cloneError m' = false
    /\ List.length cmds = 3%nat
    /\ forallb (fun c => negb (dispatches_clone c)) cmds = true.
Proof.
  apply (confirm_while_cloning_is_guarded Scenario.cloning
           [KeyMsg Scenario.enter; KeyMsg Scenario.enter; KeyMsg Scenario.enter]);
    reflexivity.
Defined.

Lemma terminate_while_cloning_witness :
  repoModel_Update Scenario.cloning (KeyMsg Scenario.ctrl_c)
  = Ok (RepoModel Scenario.cloning, Quit).
Proof.
  apply (terminate_while_cloning_still_quits "alice"
           (fetch_outcome [] Scenario.alice_pages) [KeyMsg Scenario.enter]
           Scenario.cloning
           [Batch [SpinnerTick (rm_spinner Scenario.browsing);
                   CloneRepo "https://github.com/alice/dotfiles.git"]]
           Scenario.ctrl_c);
    reflexivity.
Defined.

Lemma confirm_on_empty_browse_state_witness :
  exists (m : @repoModel Sim.widgets) (calls : list Call),
    run (paged_world Scenario.no_env (Scenario.git_says "" None)
           [inr "401 Bad credentials"])
      6 (initialModel "alice")
    = Some (m, calls)
    /\ rm_list m = list_New [] 0 0
    /\ rm_cloning m = false
    /\ repoModel_Update m (KeyMsg Scenario.enter)
       = Panic "interface conversion: list.Item is nil, not internals.item".
Proof.
  apply (confirm_on_empty_browse_state_panics Scenario.no_env
           (Scenario.git_says "" None) "alice" [inr "401 Bad credentials"] 0
           Scenario.enter).
  - reflexivity.
  - left. exists "401 Bad credentials". reflexivity.
Defined.

Lemma startup_with_empty_identity_witness :
  (exists calls : list Call,
      run (paged_world Scenario.no_env (Scenario.git_says Scenario.newline None)
             Scenario.alice_pages)
        10 (@BbltRun_model Sim.widgets)
      = Some (RepoModel (browse_state "" (fetch_outcome [] Scenario.alice_pages)),
              CallCombinedOutput "git" ["config"; "user.name"] :: calls))
  /\ (exists calls : list Call,
         run (paged_world Scenario.no_env
                (Scenario.git_says "fatal: bad config line 1 in file .gitconfig"
                   (Some "exit status 128"))
                [inr "404 Not Found"])
           8 (@BbltRun_model Sim.widgets)
         = Some (RepoModel
                   (browse_state "fatal: bad config line 1 in file .gitconfig"
                      (fetch_outcome [] [inr "404 Not Found"])),
                 CallCombinedOutput "git" ["config"; "user.name"] :: calls)).
Proof.
  split.
  - apply (startup_browses_unless_failed_and_empty Scenario.no_env
             (Scenario.git_says Scenario.newline None) Scenario.newline None
             Scenario.alice_pages 0).
    + reflexivity.
    + left. reflexivity.
  - apply (startup_browses_unless_failed_and_empty Scenario.no_env
             (Scenario.git_says "fatal: bad config line 1 in file .gitconfig"
                (Some "exit status 128"))
             "fatal: bad config line 1 in file .gitconfig" (Some "exit status 128")
             [inr "404 Not Found"] 0).
    + reflexivity.
    + right. discriminate.
Defined.

Lemma cloneDir_of_git_url_witness :
  cloneDir "https://github.com/user/myrepo.git"
  = Ok (directoryName "https://github.com/user/myrepo.git").
Proof. apply (cloneDir_of_git_url "https://github.com/user/myrepo.git"). reflexivity. Defined.

Lemma startup_identity_witness :
  run (paged_world Scenario.no_env
         (Scenario.git_says Scenario.newline (Some "exit status 1"))
         Scenario.alice_pages)
    2 (@BbltRun_model Sim.widgets)
  = Some (UsernameModel (prepUsernameModel "" repoModel_zero),
          [CallCombinedOutput "git" ["config"; "user.name"]])
  /\ um_username (@prepUsernameModel Sim.widgets "" repoModel_zero) = ""
  /\ textinput_Value (um_textInput (@prepUsernameModel Sim.widgets "" repoModel_zero))
     = "".
Proof.
  apply (startup_identity_when_read_fails_empty
           (paged_world Scenario.no_env
              (Scenario.git_says Scenario.newline (Some "exit status 1"))
              Scenario.alice_pages)
           0 Scenario.newline "exit status 1"); reflexivity.
Defined.

Lemma confirm_with_selection_witness :
  repoModel_Update Scenario.browsing (KeyMsg Scenario.enter)
  = Ok (RepoModel Scenario.cloning,
        Batch [SpinnerTick (rm_spinner Scenario.browsing);
               CloneRepo "https://github.com/alice/dotfiles.git"]).
Proof.
  apply (confirm_with_selection Scenario.browsing Scenario.enter
           {| name := "dotfiles"; url := "https://github.com/alice/dotfiles.git" |});
    reflexivity.
Defined.

Lemma terminate_when_idle_witness :
  repoModel_Update Scenario.browsing (KeyMsg Scenario.ctrl_c)
  = Ok (RepoModel Scenario.browsing, Quit).
Proof.
  apply (terminate_when_idle Scenario.browsing Scenario.ctrl_c); reflexivity.
Defined.

Lemma change_identity_key_witness :
  repoModel_Update Scenario.browsing (KeyMsg (Scenario.typed "c"))
  = Ok (UsernameModel (prepUsernameModel "alice" Scenario.browsing), Nil).
Proof.
  apply (change_identity_key Scenario.browsing (Scenario.typed "c")); reflexivity.
Defined.

Lemma identity_confirm_fetches_witness :
  run (paged_world Scenario.no_env (Scenario.git_says "" None) Scenario.alice_pages)
    9 (usernameModel_Update Scenario.edited (KeyMsg Scenario.enter))
  = Some ((RepoModel Scenario.browsing, Nil),
          [CallGetenv "GITHUB_TOKEN";
           CallRepositoriesList AnonymousClient "alice"
             {| ListType := "all"; Page := 0; PerPage := 100 |};
           CallRepositoriesList AnonymousClient "alice"
             {| ListType := "all"; Page := 2; PerPage := 100 |}]).
Proof.
  assert (Hk : Type_ Scenario.enter = KeyEnter) by reflexivity.
  assert (Hne : strings_TrimSpace (textinput_Value (um_textInput Scenario.edited))
                <> "") by discriminate.
  exact (proj2 (@identity_confirm_fetches_afresh Sim.widgets Scenario.edited
                  Scenario.enter Hk Hne)
           Scenario.no_env (Scenario.git_says "" None) Scenario.alice_pages 0%nat).
Defined.


Lemma clone_status_witness :
  exists (m' : repoModel) (cmds : list Cmd),
    browse Scenario.cloning Scenario.idling = Some (m', cmds)
    /\ rm_cloning m' = true
    /\ rm_cloneMsg m' = "Cloning dotfiles..."
    /\ rm_cloneError m' = false
    /\ clones_started cmds = 0%nat
    /\ repoModel_View m'
       = CloningScreen (list_View (rm_list m')) (spinner_View (rm_spinner m'))
           "Cloning dotfiles...".
Proof.
  eexists. eexists. split; [reflexivity|].
  exact (proj2 (clone_status_changes_only_on_confirm_and_completion Scenario.cloning)
           Scenario.idling _ _ eq_refl eq_refl).
Defined.

Lemma clone_completion_witness :
  run Scenario.alice_world 2 (cloneRepo "https://github.com/alice/gitls.git")
  = Some (Ok (cloneFinishedMsg None "gitls"),
          [CallCombinedOutput "git" ["clone"; "https://github.com/alice/gitls.git"]])
  /\ directoryName "https://github.com/alice/gitls" = "gitls"
  /\ run Scenario.alice_world 2 (cloneRepo "https://github.com/alice/gitls")
     = Some (Ok (cloneFinishedMsg None "g"),
             [CallCombinedOutput "git" ["clone"; "https://github.com/alice/gitls"]])
  /\ (exists m' : repoModel,
         repoModel_Update Scenario.cloning (cloneFinishedMsg None "g")
         = Ok (RepoModel m', Nil)
         /\ repoModel_View m'
            = CloneResultScreen (list_View (rm_list Scenario.cloning)) false
                "Successfully cloned to g/").
Proof.
  destruct (clone_completion_sets_result Scenario.cloning)
    as (Hupd & _ & Hgit & Hother & _).
  destruct (Hother Scenario.alice_world 0%nat "https://github.com/alice/gitls"
              "alice" eq_refl eq_refl) as (Hname & Hrun & _).
  split; [exact (Hgit Scenario.alice_world 0%nat "https://github.com/alice/gitls.git"
                   "alice" eq_refl eq_refl)|].
  split; [exact Hname|]. split; [exact Hrun|].
  destruct (Hupd None "g") as [Hm Hview].
  eexists. split; [exact Hm|].
  exact (Hview eq_refl _ _ Hm).
Defined.

Lemma at_most_one_clone_witness :
  exists (m' : repoModel) (cmds : list Cmd),
    browse Scenario.browsing Scenario.two_clones = Some (m', cmds)
    /\ clones_started cmds = 2%nat
    /\ clones_finished Scenario.two_clones = 1%nat
    /\ (clones_started cmds + clone_slot m'
        <= clones_finished Scenario.two_clones + clone_slot Scenario.browsing)%nat
    /\ (clones_started cmds <= clones_finished Scenario.two_clones + 1)%nat
    /\ (rm_cloning Scenario.browsing = true ->
        clones_started cmds <= clones_finished Scenario.two_clones)%nat.
Proof.
  eexists. eexists. split; [reflexivity|]. split; [reflexivity|].
  split; [reflexivity|].
  eapply (at_most_one_clone_in_flight Scenario.two_clones Scenario.browsing _ _).
  reflexivity.
Defined.

Lemma cloning_ends_only_on_completion_witness :
  (exists (m' : repoModel) (c : Cmd),
      repoModel_Update Scenario.cloning (KeyMsg (Scenario.typed "c"))
      = Ok (RepoModel m', c)
      /\ dispatches_clone c = false
      /\ rm_cloning m' = negb (is_finished (KeyMsg (Scenario.typed "c")))
      /\ (is_finished (KeyMsg (Scenario.typed "c")) = false ->
          rm_cloneMsg m' = rm_cloneMsg Scenario.cloning
          /\ rm_cloneError m' = rm_cloneError Scenario.cloning))
  /\ (exists (m' : repoModel) (c : Cmd),
         repoModel_Update Scenario.cloning (cloneFinishedMsg None "dotfiles")
         = Ok (RepoModel m', c)
         /\ dispatches_clone c = false
         /\ rm_cloning m' = negb (is_finished (cloneFinishedMsg None "dotfiles"))
         /\ (is_finished (cloneFinishedMsg None "dotfiles") = false ->
             rm_cloneMsg m' = rm_cloneMsg Scenario.cloning
             /\ rm_cloneError m' = rm_cloneError Scenario.cloning)).
Proof.
  split.
  - apply (cloning_ends_only_on_completion Scenario.cloning
             (KeyMsg (Scenario.typed "c"))). reflexivity.
  - apply (cloning_ends_only_on_completion Scenario.cloning
             (cloneFinishedMsg None "dotfiles")). reflexivity.
Defined.

Lemma identity_calls_out_witness :
  exists (next : Model) (c : Cmd) (calls : list Call),
    run Scenario.alice_world 9
      (usernameModel_Update Scenario.edited (KeyMsg Scenario.enter))
    = Some ((next, c), calls)
    /\ dispatches_clone c = false
    /\ (fetching_confirm Scenario.edited (KeyMsg Scenario.enter) = false -> calls = [])
    /\ (fetching_confirm Scenario.edited (KeyMsg Scenario.enter) = true ->
        c = Nil
        /\ (exists rest, calls = CallGetenv "GITHUB_TOKEN" :: rest)
        /\ exists rm : repoModel,
            next = RepoModel rm /\ rm_cloning rm = false
            /\ rm_username rm
               = strings_TrimSpace (textinput_Value (um_textInput Scenario.edited))).
Proof.
  eexists. eexists. eexists. split; [reflexivity|].
  eapply (identity_calls_out_only_on_confirm Scenario.edited (KeyMsg Scenario.enter)
           Scenario.alice_world 9 _ _ _).
  reflexivity.
Defined.

Lemma fetchRepos_never_returns_witness :
  run endless_world 1000 (fetchRepos "alice") = None.
Proof.
  apply (fetchRepos_never_returns_without_last_page endless_world "alice" 1000).
  intros p. split; [reflexivity | discriminate].
Defined.

Lemma fetchRepos_asks_and_returns_witness :
  exists later : list Z,
    [CallGetenv "GITHUB_TOKEN";
     CallRepositoriesList AnonymousClient "alice" (page_options 0);
     CallRepositoriesList AnonymousClient "alice" (page_options 2)]
    = CallGetenv "GITHUB_TOKEN"
      :: map (page_request Scenario.alice_world "alice") (0 :: later)
    /\ linked Scenario.alice_world "alice" 0 later
    /\ match failure_of (page_answer Scenario.alice_world "alice" (final_page 0 later)) with
       | Some e =>
           ([Scenario.repo "alice" "dotfiles"; Scenario.repo "alice" "gitls";
             Scenario.repo "alice" "notes"], @None error)
           = ([], Some ("failed to list repos: " ++ e))
       | None =>
           next_of (page_answer Scenario.alice_world "alice" (final_page 0 later)) = 0
           /\ ([Scenario.repo "alice" "dotfiles"; Scenario.repo "alice" "gitls";
                Scenario.repo "alice" "notes"], @None error)
              = (List.concat
                   (map (fun p => listing_of (page_answer Scenario.alice_world "alice" p))
                      (0 :: later)),
                 None)
       end.
Proof.
  apply (fetchRepos_asks_and_returns Scenario.alice_world "alice" 7).
  reflexivity.
Defined.

Lemma initialModel_lists_every_page_witness :
  exists (m : @repoModel Sim.widgets) (calls : list Call),
    run (paged_world Scenario.no_env (Scenario.git_says "" None)
           (map inl [[Scenario.repo "alice" "dotfiles"; Scenario.repo "alice" "gitls"];
                     [Scenario.repo "alice" "notes"]]))
      8 (initialModel "alice")
    = Some (m, calls)
    /\ rm_err m = None
    /\ rm_repos m
       = [Scenario.repo "alice" "dotfiles"; Scenario.repo "alice" "gitls";
          Scenario.repo "alice" "notes"]
    /\ rm_list m
       = {| Sim.items :=
              [{| name := "dotfiles"; url := "https://github.com/alice/dotfiles.git" |};
               {| name := "gitls"; url := "https://github.com/alice/gitls.git" |};
               {| name := "notes"; url := "https://github.com/alice/notes.git" |}];
            Sim.cursor := 0; Sim.title := "alice's GitHub Repositories";
            Sim.size := (80, 24); Sim.keys := true |}
    /\ List.length
         (map item_of
            [Scenario.repo "alice" "dotfiles"; Scenario.repo "alice" "gitls";
             Scenario.repo "alice" "notes"])
       = 3%nat
    /\ map item_Title
         (map item_of
            [Scenario.repo "alice" "dotfiles"; Scenario.repo "alice" "gitls";
             Scenario.repo "alice" "notes"])
       = ["dotfiles"; "gitls"; "notes"]
    /\ map item_Description
         (map item_of
            [Scenario.repo "alice" "dotfiles"; Scenario.repo "alice" "gitls";
             Scenario.repo "alice" "notes"])
       = ["https://github.com/alice/dotfiles.git"; "https://github.com/alice/gitls.git";
          "https://github.com/alice/notes.git"].
Proof.
  assert (Hne : List.concat
                  [[Scenario.repo "alice" "dotfiles"; Scenario.repo "alice" "gitls"];
                   [Scenario.repo "alice" "notes"]] <> []) by discriminate.
  exact (@initialModel_lists_every_page Sim.widgets Scenario.no_env
           (Scenario.git_says "" None) "alice"
           [[Scenario.repo "alice" "dotfiles"; Scenario.repo "alice" "gitls"];
            [Scenario.repo "alice" "notes"]] 0 Hne).
Defined.

Lemma program_keeps_one_clone_witness :
  exists (m' : Model) (cmds : list Cmd) (calls : list Call),
    run Scenario.alice_world 40
      (m0 <- @BbltRun_model Sim.widgets ;; session m0 Scenario.a_session)
    = Some (Ok (m', cmds), calls)
    /\ clones_started cmds = 2%nat
    /\ clones_finished Scenario.a_session = 1%nat
    /\ (clones_started cmds + model_slot m'
        <= clones_finished Scenario.a_session + 1)%nat.
Proof.
  eexists. eexists. eexists. split; [reflexivity|].
  split; [reflexivity|]. split; [reflexivity|].
  eapply (program_keeps_one_clone_in_flight Scenario.alice_world 40
           Scenario.a_session _ _ _).
  reflexivity.
Defined.

Lemma clone_line_matches_its_style_witness :
  exists (m : @repoModel Sim.widgets) (cmds : list Cmd),
    browse (browse_state "alice" (fetch_outcome [] Scenario.alice_pages))
      [KeyMsg Scenario.enter; cloneFinishedMsg (Some "exit status 128: fatal") "";
       KeyMsg (Scenario.typed "j")]
    = Some (m, cmds)
    /\ repoModel_View m
       = CloneResultScreen (list_View (rm_list m)) true
           "Error cloning: exit status 128: fatal"
    /\ match repoModel_View m with
       | FetchErrorScreen _ => rm_err m <> None
       | ListScreen _ => rm_cloning m = false /\ rm_cloneMsg m = ""
       | CloningScreen _ _ text => exists n, text = "Cloning " ++ n ++ "..."
       | CloneResultScreen _ true text => exists e, text = "Error cloning: " ++ e
       | CloneResultScreen _ false text =>
           exists d, text = "Successfully cloned to " ++ d ++ "/"
       end.
Proof.
  eexists. eexists. split; [reflexivity|]. split; [reflexivity|].
  eapply (clone_line_matches_its_style
            [KeyMsg Scenario.enter; cloneFinishedMsg (Some "exit status 128: fatal") "";
             KeyMsg (Scenario.typed "j")]
            "alice" (fetch_outcome [] Scenario.alice_pages)).
  reflexivity.
Defined.
